(** * PET + PCR + CO2 calculator: the data pipeline of [app.py]

    A shallow embedding of the table loaders ([normalize_cols], [load_xlsx],
    [load_purchase_csv]), of the purchase merge, of the calculator's input
    coercion and of the per-record detail formulas.

    Numbers are IEEE binary64 values, as in a pandas [float64] column: the
    primitive type [float], in which a missing value is NaN.  Where values
    are added or multiplied, the [int64] columns pandas keeps when every
    value of a column is an integer are modelled too, with their
    wrap-around.  A header or a text cell is a [string] whose characters are
    code points below 256.

    A loader starts from the table [pd.read_excel] or [pd.read_csv] has
    parsed, with text headers; a file the parser refuses is outside the
    model. *)

From Stdlib Require Import Floats ZArith Bool List String Ascii Lia Permutation Sorted
  DecimalString.
Import ListNotations.

Set Warnings "-inexact-float".

Local Open Scope string_scope.
Local Open Scope list_scope.

(** ** Text *)

(** The characters that [str.strip()] removes, among the code points below
    256: tab to carriage return, the four separators 28 to 31, the space,
    NEL (133) and the no-break space (160). *)
Definition is_space (c : ascii) : bool :=
  let n := nat_of_ascii c in
  ((9 <=? n) && (n <=? 13) || (28 <=? n) && (n <=? 32)
   || (n =? 133) || (n =? 160))%nat.

Fixpoint lstrip (s : string) : string :=
  match s with
  | String c s' => if is_space c then lstrip s' else s
  | EmptyString => EmptyString
  end.

Fixpoint rstrip (s : string) : string :=
  match s with
  | String c s' =>
      match rstrip s' with
      | EmptyString => if is_space c then EmptyString else String c EmptyString
      | r => String c r
      end
  | EmptyString => EmptyString
  end.

Definition strip (s : string) : string := lstrip (rstrip s).

(** ASCII lower-casing, used only to say that two headers differ in letter
    case alone. *)
Definition lower_char (c : ascii) : ascii :=
  let n := nat_of_ascii c in
  if ((65 <=? n) && (n <=? 90))%nat then ascii_of_nat (n + 32) else c.

Fixpoint lower (s : string) : string :=
  match s with
  | String c s' => String (lower_char c) (lower s')
  | EmptyString => EmptyString
  end.

(** ** Python dictionaries with string keys, in insertion order *)

Definition dict (A : Type) : Type := list (string * A).

Fixpoint dict_get {A} (k : string) (d : dict A) : option A :=
  match d with
  | [] => None
  | (k', v) :: d' => if String.eqb k k' then Some v else dict_get k d'
  end.

Fixpoint dict_set {A} (k : string) (v : A) (d : dict A) : dict A :=
  match d with
  | [] => [(k, v)]
  | (k', v') :: d' =>
      if String.eqb k k' then (k', v) :: d' else (k', v') :: dict_set k v d'
  end.

Definition dict_has {A} (k : string) (d : dict A) : bool :=
  match dict_get k d with Some _ => true | None => false end.

Definition dict_keys {A} (d : dict A) : list string := map fst d.

(** [x in columns] *)
Definition mem (x : string) (l : list string) : bool := existsb (String.eqb x) l.

(** ** Header resolution: [normalize_cols] *)

Definition col_map_candidates : dict (list string) :=
  [ ("Vendor Part Number",
     ["Vendor Part Number"; "Vendor Part #"; "Vendor Part No"; "Part Number";
      "Part #"; "VendorPN"; "Vendor PN"]);
    ("Item Description",
     ["Item Description"; "Description"; "Item"; "Item Desc"]);
    ("Weight (g)",
     ["Weight (g)"; "Gram Weight"; "Gram Weight (g)"; "Grams"; "Weight Grams";
      "Weight_g"; "Weight"]);
    ("PCR %",
     ["PCR %"; "PCR%"; "PCR Content"; "PCR Content %"; "% PCR";
      "Post-Consumer %"]) ].

(** The inner loop of lines 43 to 46: the first option that is a column. *)
Definition first_present (options columns : list string) : option string :=
  find (fun opt => mem opt columns) options.

(** The loop of lines 41 to 46, over any candidate table. *)
Definition resolve (candidates : dict (list string)) (columns : list string)
  : dict string :=
  fold_left
    (fun resolved '(target, options) =>
       match first_present options columns with
       | Some opt => dict_set target opt resolved
       | None => resolved
       end)
    candidates [].

(** Line 48. *)
Definition missing_of (candidates : dict (list string)) (resolved : dict string)
  : list string :=
  filter (fun k => negb (dict_has k resolved)) (dict_keys candidates).

(** The dictionary [{resolved[k]: k for k in resolved}] of line 55. *)
Definition rename_dict (resolved : dict string) : dict string :=
  fold_left (fun d '(k, opt) => dict_set opt k d) resolved [].

(** [df.rename(columns=d)] on one label. *)
Definition rename (d : dict string) (c : string) : string :=
  match dict_get c d with Some k => k | None => c end.

(** What the program raises.  Each [ValueError] is kept as the values its
    message is formatted from. *)
Inductive Exn : Type :=
| MissingColumns (missing found : list string)
    (* "Missing required columns: {missing}. Found columns: {found}" *)
| PurchaseColumns (found pn_accepted qty_accepted : list string)
    (* "Purchase CSV must include columns for part number and quantity."
       with the columns found and the accepted headers of both fields *)
| AmbiguousLabel (label : string).
    (* pandas: the label names several columns, so selecting it does not give
       a single column and the conversion applied to it raises *)

(** ** Tables *)

(** A cell as pandas reads it: a number (NaN when the cell is empty) or
    text. *)
Inductive Cell : Type :=
| CNum (f : float)
| CStr (s : string).

(** A table: its column labels and its rows, each row listing its cells in
    column order. *)
Record DataFrame : Type := mkDataFrame {
  columns : list string;
  rows : list (list Cell)
}.

Definition label_count (c : string) (cols : list string) : nat :=
  List.length (filter (String.eqb c) cols).

Fixpoint position (c : string) (cols : list string) : option nat :=
  match cols with
  | [] => None
  | c' :: cols' =>
      if String.eqb c c' then Some 0
      else option_map S (position c cols')
  end.

(** The cell of [row] under the label [c]; a row that stops short is padded
    with empty cells. *)
Definition cell_at (c : string) (cols : list string) (row : list Cell) : Cell :=
  match position c cols with
  | Some i => nth i row (CNum nan)
  | None => CNum nan
  end.

(** Selecting [df[c]] as a single column fails when [c] labels several. *)
Definition ambiguous (wanted cols : list string) : option string :=
  find (fun c => negb (label_count c cols =? 1)%nat) wanted.

(** [normalize_cols], lines 19 to 56. *)
Definition normalize_cols (df : DataFrame) : Exn + DataFrame :=
  let columns := map strip (columns df) in
  let resolved := resolve col_map_candidates columns in
  let missing := missing_of col_map_candidates resolved in
  match missing with
  | [] => inr (mkDataFrame (map (rename (rename_dict resolved)) columns) (rows df))
  | _ :: _ => inl (MissingColumns missing columns)
  end.

(** ** Numbers *)

Definition GRAMS_PER_LB : float := 453.59237%float.
Definition KG_PER_LB : float := 0.45359237%float.

(** [Series.fillna(d)] on one value. *)
Definition fillna (v d : float) : float := if is_nan v then d else v.

(** [Series.clip(lower, upper)] on one value: a missing value is kept, a
    value under [lower] becomes [lower], a value over [upper] becomes
    [upper]. *)
Definition clip (lower upper v : float) : float :=
  let r := if is_nan v || (lower <=? v)%float then v else lower in
  if is_nan v || (v <=? upper)%float then r else upper.

(** The sum of a [float64] column with its additions made one after the
    other in row order, from 0, missing values skipped.  pandas pairs the
    additions in [Series.sum] and compensates them in a grouped sum (see
    [Dtype.kahan_sum]); this plain sum is used where the additions are
    exact, so that their order does not matter. *)
Definition series_sum (l : list float) : float :=
  fold_left (fun acc v => if is_nan v then acc else (acc + v)%float) l 0%float.

(** [lo <= v <= hi] in binary64 (false when [v] is NaN). *)
Definition between (lo hi v : float) : Prop :=
  (lo <=? v)%float = true /\ (v <=? hi)%float = true.

(** ** Records *)

Record PartRecord : Type := mkPart {
  part_number : string;
  description : string;
  weight_g : float;
  pcr_pct : float;
  quantity : float
}.

Record PurchaseRecord : Type := mkPurchase {
  p_part_number : string;
  p_quantity : float
}.

Definition set_quantity (r : PartRecord) (q : float) : PartRecord :=
  mkPart (part_number r) (description r) (weight_g r) (pcr_pct r) q.

Definition set_pcr (r : PartRecord) (p : float) : PartRecord :=
  mkPart (part_number r) (description r) (weight_g r) p (quantity r).

(** A row of the table handed back by the editor. *)
Record EditedRow : Type := mkEdited {
  e_part_number : string;
  e_description : string;
  e_weight : Cell;
  e_pcr : Cell;
  e_quantity : Cell
}.

(** Stand-ins for the two library conversions of the section below, for
    the examples: text made of decimal digits reads as that number and any
    other text as NaN; every number prints as ["#"]. *)
Fixpoint read_digits (acc : float) (s : string) : float :=
  match s with
  | EmptyString => acc
  | String c s' =>
      let n := nat_of_ascii c in
      if ((48 <=? n) && (n <=? 57))%nat
      then read_digits (acc * 10 + of_uint63 (Uint63.of_Z (Z.of_nat (n - 48))))%float s'
      else nan
  end.

Definition sample_parse (s : string) : float :=
  match s with
  | EmptyString => nan
  | _ => read_digits 0%float s
  end.

Definition sample_str (f : float) : string := "#".

Section Pipeline.

(** The two conversions the program leaves to pandas and Python:
    [parse_float s] is the number [pd.to_numeric] reads in the text [s], NaN
    when [s] is not a number ([errors="coerce"]); [num_str f] is [str(f)] for
    a number [f] that is not NaN. *)
Variable parse_float : string -> float.
Variable num_str : float -> string.

(** [pd.to_numeric(..., errors="coerce")] on one cell. *)
Definition to_numeric (c : Cell) : float :=
  match c with
  | CNum f => f
  | CStr s => parse_float s
  end.

(** [astype(str)] on one cell: each value goes through Python's [str], so
    an empty cell, NaN, becomes the text ["nan"] and is missing no longer
    (the element-wise conversion of pandas before version 3). *)
Definition astype_str (c : Cell) : string :=
  match c with
  | CStr s => s
  | CNum f => if is_nan f then "nan" else num_str f
  end.

(** [isna] on a value of a column of [str] objects. *)
Definition isna_str (s : string) : bool := false.

(** ** The catalog: [load_xlsx], lines 60 to 75 *)

Definition catalog_labels : list string :=
  ["Vendor Part Number"; "Item Description"; "Weight (g)"; "PCR %"].

(** Lines 64 to 68 on one row; the quantity is set on line 74. *)
Definition read_part (cols : list string) (row : list Cell) : PartRecord :=
  mkPart (strip (astype_str (cell_at "Vendor Part Number" cols row)))
         (strip (astype_str (cell_at "Item Description" cols row)))
         (to_numeric (cell_at "Weight (g)" cols row))
         (to_numeric (cell_at "PCR %" cols row))
         0%float.

(** Line 70: the rows [dropna] keeps. *)
Definition notna_part (r : PartRecord) : bool :=
  negb (isna_str (part_number r) || is_nan (weight_g r) || is_nan (pcr_pct r)).

Definition load_xlsx (df : DataFrame) : Exn + list PartRecord :=
  match normalize_cols df with
  | inl e => inl e
  | inr df =>
      match ambiguous catalog_labels (columns df) with
      | Some c => inl (AmbiguousLabel c)
      | None =>
          let parts := map (read_part (columns df)) (rows df) in
          let parts := filter notna_part parts in
          let parts := map (fun r => set_pcr r (clip 0 100 (pcr_pct r))) parts in
          inr (map (fun r => set_quantity r 0%float) parts)
      end
  end.

(** ** The purchase ledger: [load_purchase_csv], lines 78 to 102 *)

Definition pn_candidates : list string :=
  ["Vendor Part Number"; "Part Number"; "Part #"; "VendorPN"; "Vendor PN"].

Definition qty_candidates : list string :=
  ["Quantity"; "Qty"; "Quantity Purchased"; "Units"; "Count"].

(** Sorting the group keys: insertion sort on the code-point order of
    [str]. *)
Fixpoint insert_sorted (k : string) (l : list string) : list string :=
  match l with
  | [] => [k]
  | k' :: l' => if String.leb k k' then k :: l else k' :: insert_sorted k l'
  end.

Definition sort_keys (l : list string) : list string :=
  fold_right insert_sorted [] l.

(** [groupby("Vendor Part Number", as_index=False)["Quantity"].sum()] on a
    [float64] column: one row per distinct key, keys in sorted order, each
    with the plain sum of the quantities of its rows.  The loader that keeps
    the type of the column and the compensated sum is
    [Dtype.load_purchase_csv]. *)
Definition group_rows (k : string) (l : list PurchaseRecord) : list PurchaseRecord :=
  filter (fun r => String.eqb (p_part_number r) k) l.

Definition groupby_sum (l : list PurchaseRecord) : list PurchaseRecord :=
  map (fun k => mkPurchase k (series_sum (map p_quantity (group_rows k l))))
      (sort_keys (nodup string_dec (map p_part_number l))).

(** Lines 99 and 100 on one row. *)
Definition read_purchase (cols : list string) (row : list Cell) : PurchaseRecord :=
  mkPurchase (strip (astype_str (cell_at "Vendor Part Number" cols row)))
             (fillna (to_numeric (cell_at "Quantity" cols row)) 0%float).

Definition load_purchase_csv (df : DataFrame) : Exn + list PurchaseRecord :=
  let cols := map strip (columns df) in
  match first_present pn_candidates cols, first_present qty_candidates cols with
  | Some pn, Some qty =>
      let d := dict_set qty "Quantity" (dict_set pn "Vendor Part Number" []) in
      let cols := map (rename d) cols in
      match ambiguous ["Vendor Part Number"; "Quantity"] cols with
      | Some c => inl (AmbiguousLabel c)
      | None => inr (groupby_sum (map (read_purchase cols) (rows df)))
      end
  | _, _ => inl (PurchaseColumns cols pn_candidates qty_candidates)
  end.

(** ** The purchase merge, lines 162 to 165 *)

(** [work.merge(purchases, on="Vendor Part Number", how="left",
    suffixes=("", "_csv"))]: each row of [work], in order, once per purchase
    row with its part number, paired with that row's quantity (the column
    [Quantity_csv]); a row without a match appears once, with a missing
    [Quantity_csv]. *)
Definition left_join (work : list PartRecord) (purchases : list PurchaseRecord)
  : list (PartRecord * float) :=
  flat_map
    (fun r =>
       match group_rows (part_number r) purchases with
       | [] => [(r, nan)]
       | ms => map (fun p => (r, p_quantity p)) ms
       end)
    work.

(** Line 164, then line 165 drops [Quantity_csv]. *)
Definition merge_purchases (work : list PartRecord) (purchases : list PurchaseRecord)
  : list PartRecord :=
  map (fun '(r, quantity_csv) => set_quantity r (fillna quantity_csv (quantity r)))
      (left_join work purchases).

(** The quantity a ledger holds for a part number. *)
Definition purchase_quantity (pn : string) (purchases : list PurchaseRecord)
  : option float :=
  option_map p_quantity
    (find (fun p => String.eqb (p_part_number p) pn) purchases).

(** Lines 156 to 165 as one run of the script: the catalog [db] is kept
    from run to run, the working set is derived afresh from a copy of it and
    merged with the ledger uploaded for this run, if there is one. *)
Record Session : Type := mkSession {
  s_db : list PartRecord;
  s_work : list PartRecord
}.

Definition rerun (s : Session) (purchase_csv : option (list PurchaseRecord))
  : Session :=
  let work := s_db s in
  match purchase_csv with
  | Some purchases => mkSession (s_db s) (merge_purchases work purchases)
  | None => mkSession (s_db s) work
  end.

(** ** The calculator, lines 225 to 228 and 264 to 268 *)

(** Lines 226 to 228 on one row. *)
Definition coerce_row (e : EditedRow) : PartRecord :=
  mkPart (e_part_number e) (e_description e)
         (fillna (to_numeric (e_weight e)) 0%float)
         (clip 0 100 (fillna (to_numeric (e_pcr e)) 0%float))
         (fillna (to_numeric (e_quantity e)) 0%float).

Definition coerce (edited : list EditedRow) : list PartRecord :=
  map coerce_row edited.

End Pipeline.

(** The canonical fields none of whose aliases is among the labels
    [found]: the fields the error message is said to list. *)
Definition unresolved_fields (candidates : dict (list string)) (found : list string)
  : list string :=
  map fst
    (filter (fun '(_, options) => forallb (fun opt => negb (mem opt found)) options)
       candidates).

(** What one entry of the candidate table adds to the resolved
    dictionary. *)
Definition binding (columns : list string) (entry : string * list string)
  : dict string :=
  match first_present (snd entry) columns with
  | Some opt => [(fst entry, opt)]
  | None => []
  end.

(** ** Reading binary64 values *)

(** A value that is a zero or a regular number: not NaN, not infinite. *)
Definition sf_real (f : spec_float) : bool :=
  match f with
  | S754_zero _ | S754_finite _ _ _ => true
  | _ => false
  end.

(** A number that is not zero, infinite or NaN. *)
Definition is_regular (c : float) : Prop :=
  exists s m e, Prim2SF c = S754_finite s m e.

(** ** The merge, row by row *)

(** What lines 162 to 165 make of one catalog row when no part number occurs
    twice in the ledger. *)
Definition merge_row (purchases : list PurchaseRecord) (r : PartRecord) : PartRecord :=
  set_quantity r
    match purchase_quantity (part_number r) purchases with
    | Some quantity_csv => fillna quantity_csv (quantity r)
    | None => quantity r
    end.

(** The rows of a record set with a given part number. *)
Definition rows_of (pn : string) (l : list PartRecord) : list PartRecord :=
  filter (fun r => String.eqb (part_number r) pn) l.

(** ** Sample inputs *)

(** A catalog with a padded alias header, a duplicated part number, a PCR
    percentage over 100 and one under 0. *)
Definition sample_catalog : DataFrame :=
  mkDataFrame [" Part # "; "Item"; "Weight"; "PCR%"]
    [ [CStr "A-1"; CStr "cap"; CNum 50; CNum 140];
      [CStr "A-1"; CStr "cap, blue"; CStr "25"; CNum (-3)];
      [CStr "B-2"; CStr "lid"; CNum 12; CNum 40] ].

Definition sample_parts : list PartRecord :=
  [ mkPart "A-1" "cap" 50 100 0;
    mkPart "A-1" "cap, blue" 25 0 0;
    mkPart "B-2" "lid" 12 40 0 ].

(** A ledger in which the part A-1 has two rows and one quantity is not a
    number. *)
Definition sample_ledger : DataFrame :=
  mkDataFrame ["Part Number"; "Qty"]
    [ [CStr "A-1"; CNum 100]; [CStr " A-1"; CStr "250"];
      [CStr "ZZZ-999"; CStr "many"] ].

Definition sample_purchases : list PurchaseRecord :=
  [ mkPurchase "A-1" 350; mkPurchase "ZZZ-999" 0 ].

(** A catalog without a weight column, and one whose weight header is a
    case variant of an alias. *)
Definition catalog_without_weight : DataFrame :=
  mkDataFrame ["Part Number"; "Description"; "PCR %"] [].

Definition catalog_lowercase_weight : DataFrame :=
  mkDataFrame ["Part Number"; "Description"; "weight (g)"; "PCR %"] [].

Definition ledger_uppercase_qty : DataFrame :=
  mkDataFrame ["Part Number"; "QTY"] [].

(** A catalog whose only row has an empty part number cell. *)
Definition catalog_missing_part_number : DataFrame :=
  mkDataFrame ["Vendor Part Number"; "Item Description"; "Weight (g)"; "PCR %"]
    [ [CNum nan; CStr "Cap"; CNum 10; CNum 50] ].

(** An edited row with a negative weight and a negative quantity. *)
Definition edited_negative : EditedRow :=
  mkEdited "A-1" "cap" (CNum (-5)) (CNum 50) (CNum (-3)).

(** ** Ledger part numbers absent from the catalog, lines 168 to 172 *)

(** [sorted(list(purchase_pns - db_pns))]: the members of the set
    difference, each once, in ascending order. *)
Definition unmatched (db : list PartRecord) (purchases : list PurchaseRecord)
  : list string :=
  sort_keys
    (nodup string_dec
       (filter (fun pn => negb (mem pn (map part_number db)))
          (map p_part_number purchases))).

(** Lines 171 and 172: [csv_unmatched] stays [None] when the list is
    empty. *)
Definition csv_unmatched (db : list PartRecord) (purchases : list PurchaseRecord)
  : option (list string) :=
  match unmatched db purchases with
  | [] => None
  | missing => Some missing
  end.

(** Ascending order of labels, and strictly ascending order. *)
Definition str_le (a b : string) : Prop := String.leb a b = true.

Definition str_lt (a b : string) : Prop := String.leb a b = true /\ a <> b.

(** ** The aggregate results, lines 230 to 248 *)

Record Totals : Type := mkTotals {
  total_lbs : float;
  total_kg : float;
  pcr_lbs : float;
  pcr_kg : float;
  avoided_metric_tons : float;
  baseline_avoided_metric_tons : float;
  advantage_metric_tons : float
}.

(** Lines 230 to 248 on the coerced table; [pet_pcr_benefit] and
    [current_pcr_pct] are the sidebar inputs. *)
Definition totals (pet_pcr_benefit current_pcr_pct : float)
           (edited : list PartRecord) : Totals :=
  let total_grams :=
    series_sum (map (fun r => (weight_g r * quantity r)%float) edited) in
  let total_lbs := (total_grams / GRAMS_PER_LB)%float in
  let total_kg := (total_lbs * KG_PER_LB)%float in
  let pcr_grams :=
    series_sum
      (map (fun r => (weight_g r * quantity r * (pcr_pct r / 100))%float) edited) in
  let pcr_lbs := (pcr_grams / GRAMS_PER_LB)%float in
  let pcr_kg := (pcr_lbs * KG_PER_LB)%float in
  let avoided_kg := (pcr_kg * pet_pcr_benefit)%float in
  let avoided_metric_tons := (avoided_kg / 1000)%float in
  let baseline_pcr_kg := (total_kg * (current_pcr_pct / 100))%float in
  let baseline_avoided_metric_tons :=
    ((baseline_pcr_kg * pet_pcr_benefit) / 1000)%float in
  let advantage_metric_tons :=
    (avoided_metric_tons - baseline_avoided_metric_tons)%float in
  mkTotals total_lbs total_kg pcr_lbs pcr_kg avoided_metric_tons
           baseline_avoided_metric_tons advantage_metric_tons.

(** A coerced record read back as a row of numeric cells. *)
Definition as_edited (r : PartRecord) : EditedRow :=
  mkEdited (part_number r) (description r)
           (CNum (weight_g r)) (CNum (pcr_pct r)) (CNum (quantity r)).

(** ** Columns that keep their type: int64 and float64 *)

(** The value of a numeric column as [pd.to_numeric] returns it: an [int64]
    (an integer from -2^63 to 2^63 - 1) when every value of the column is an
    integer, a [float64] otherwise.  A row carries the types of its
    columns. *)
Inductive Num : Type :=
| NInt (z : Z)
| NFloat (f : float).

(** Arithmetic on [int64] wraps around modulo 2^64. *)
Definition wrap64 (z : Z) : Z :=
  ((z + 9223372036854775808) mod 18446744073709551616 - 9223372036854775808)%Z.

(** The conversion of an [int64] to [float64], rounding to nearest, ties to
    even. *)
Definition of_int64 (z : Z) : float :=
  if (z =? -9223372036854775808)%Z then (- 9223372036854775808)%float
  else if (z <? 0)%Z then (- of_uint63 (Uint63.of_Z (- z)))%float
  else of_uint63 (Uint63.of_Z z).

Definition num_float (n : Num) : float :=
  match n with
  | NInt z => of_int64 z
  | NFloat f => f
  end.

(** The product of two columns, value by value: in [int64] when both are,
    in [float64] otherwise. *)
Definition num_mul (a b : Num) : Num :=
  match a, b with
  | NInt x, NInt y => NInt (wrap64 (x * y))
  | _, _ => NFloat (num_float a * num_float b)%float
  end.

(** [fillna(d)] and [clip(lower, upper)] keep the type of the column. *)
Definition num_fillna (n : Num) (d : Z) : Num :=
  match n with
  | NInt z => NInt z
  | NFloat f => NFloat (fillna f (of_int64 d))
  end.

Definition num_clip (lower upper : Z) (n : Num) : Num :=
  match n with
  | NInt z =>
      let r := if (lower <=? z)%Z then z else lower in
      NInt (if (z <=? upper)%Z then r else upper)
  | NFloat f => NFloat (clip (of_int64 lower) (of_int64 upper) f)
  end.

Definition num_is_zero (n : Num) : bool :=
  match n with
  | NInt z => (z =? 0)%Z
  | NFloat f => is_zero f
  end.

(** Not an infinity and not NaN; an [int64] never is. *)
Definition num_is_finite (n : Num) : bool :=
  match n with
  | NInt _ => true
  | NFloat f => is_finite f
  end.

(** The exact sum of a list of integers. *)
Definition Zsum (l : list Z) : Z := fold_right Z.add 0%Z l.

(** ** The detail table with the column types kept, lines 226 to 228 and
    264 to 268 *)

(** A row of the edited table as [pd.to_numeric] reads its three numeric
    columns. *)
Record NumRow : Type := mkNumRow {
  n_part_number : string;
  n_description : string;
  n_weight : Num;
  n_pcr : Num;
  n_quantity : Num
}.

(** Lines 226 to 228 after [pd.to_numeric]: [fillna(0)], and [clip(0, 100)]
    for the PCR percentage. *)
Definition coerce_num (r : NumRow) : NumRow :=
  mkNumRow (n_part_number r) (n_description r)
           (num_fillna (n_weight r) 0)
           (num_clip 0 100 (num_fillna (n_pcr r) 0))
           (num_fillna (n_quantity r) 0).

(** A row of the detail table, lines 264 to 268. *)
Record DetailRow : Type := mkDetail {
  d_record : NumRow;
  total_weight_lb : float;
  pcr_weight_lb : float;
  pcr_weight_kg : float;
  avoided_co2_t : float
}.

(** Lines 265 to 268 on one row; [pet_pcr_benefit] is the sidebar input.
    The product on line 265 is taken in the type of the two columns; the
    division by [GRAMS_PER_LB] and all that follows are in [float64]. *)
Definition detail_row (pet_pcr_benefit : float) (r : NumRow) : DetailRow :=
  let total_lb :=
    (num_float (num_mul (n_weight r) (n_quantity r)) / GRAMS_PER_LB)%float in
  let pcr_lb := (total_lb * (num_float (n_pcr r) / 100))%float in
  let pcr_kg := (pcr_lb * KG_PER_LB)%float in
  let avoided := ((pcr_kg * pet_pcr_benefit) / 1000)%float in
  mkDetail r total_lb pcr_lb pcr_kg avoided.

Definition detail (pet_pcr_benefit : float) (edited : list NumRow)
  : list DetailRow :=
  map (detail_row pet_pcr_benefit) (map coerce_num edited).

(** ** The ledger load with the column types kept, lines 78 to 102 *)

Module Dtype.

(** A cell of the table [pd.read_csv] returns (line 80): an integer, a
    float (NaN when the cell is empty) or text. *)
Inductive Value : Type :=
| VInt (z : Z)
| VFloat (f : float)
| VStr (s : string).

Record DataFrame : Type := mkDataFrame {
  columns : list string;
  rows : list (list Value)
}.

(** A numeric column. *)
Inductive Series : Type :=
| IntSeries (values : list Z)
| FloatSeries (values : list float).

Record PurchaseRecord : Type := mkPurchase {
  p_part_number : string;
  p_quantity : Num
}.

Definition cell_at (c : string) (cols : list string) (row : list Value) : Value :=
  match position c cols with
  | Some i => nth i row (VFloat nan)
  | None => VFloat nan
  end.

(** [str] of an integer. *)
Definition int_str (z : Z) : string := NilZero.string_of_int (Z.to_int z).

(** The values of the rows whose key is [k]. *)
Definition group_values {A} (k : string) (keys : list string) (values : list A)
  : list A :=
  map snd (filter (fun kv => String.eqb (fst kv) k) (combine keys values)).

(** The grouped sum of an [int64] column: each addition wraps around. *)
Definition int_sum (l : list Z) : Z :=
  fold_left (fun sumx val => wrap64 (sumx + val)) l 0%Z.

(** The grouped sum of a [float64] column, as pandas computes it: a
    compensated (Kahan) sum in row order that skips NaN; a compensation that
    has become NaN, after an infinity, is reset to 0. *)
Definition kahan_step (st : float * float) (val : float) : float * float :=
  let '(sumx, compensation) := st in
  if is_nan val then st
  else
    let y := (val - compensation)%float in
    let t := (sumx + y)%float in
    let c := (t - sumx - y)%float in
    (t, if is_nan c then 0%float else c).

Definition kahan_sum (l : list float) : float :=
  fst (fold_left kahan_step l (0%float, 0%float)).

(** [groupby("Vendor Part Number", as_index=False)["Quantity"].sum()]. *)
Definition groupby_sum (keys : list string) (quantity : Series)
  : list PurchaseRecord :=
  let groups := sort_keys (nodup string_dec keys) in
  match quantity with
  | IntSeries values =>
      map (fun k => mkPurchase k (NInt (int_sum (group_values k keys values))))
          groups
  | FloatSeries values =>
      map (fun k => mkPurchase k (NFloat (kahan_sum (group_values k keys values))))
          groups
  end.

(** [fillna(0)] on a column. *)
Definition fillna0 (s : Series) : Series :=
  match s with
  | IntSeries values => IntSeries values
  | FloatSeries values => FloatSeries (map (fun f => fillna f 0%float) values)
  end.

Section Ledger.

(** What the program leaves to pandas and Python: [parse_int s] is the
    integer the text [s] reads as, if it reads as an integer; [parse_float s]
    is the float it reads as otherwise, NaN when it is not a number;
    [num_str f] is [str(f)] for a float that is not NaN. *)
Variable parse_int : string -> option Z.
Variable parse_float : string -> float.
Variable num_str : float -> string.

Definition astype_str (v : Value) : string :=
  match v with
  | VInt z => int_str z
  | VFloat f => if is_nan f then "nan" else num_str f
  | VStr s => s
  end.

Definition as_int (v : Value) : option Z :=
  match v with
  | VInt z => Some z
  | VFloat _ => None
  | VStr s => parse_int s
  end.

Definition as_float (v : Value) : float :=
  match v with
  | VInt z => of_int64 z
  | VFloat f => f
  | VStr s =>
      match parse_int s with
      | Some z => of_int64 z
      | None => parse_float s
      end
  end.

(** The integers of a column every cell of which reads as an integer. *)
Fixpoint all_int (col : list Value) : option (list Z) :=
  match col with
  | [] => Some []
  | v :: col' =>
      match as_int v, all_int col' with
      | Some z, Some zs => Some (z :: zs)
      | _, _ => None
      end
  end.

(** [pd.to_numeric(..., errors="coerce")] on a column: [int64] when every
    cell reads as an integer, [float64] otherwise. *)
Definition to_numeric (col : list Value) : Series :=
  match all_int col with
  | Some zs => IntSeries zs
  | None => FloatSeries (map as_float col)
  end.

Definition load_purchase_csv (df : DataFrame) : Exn + list PurchaseRecord :=
  let cols := map strip (columns df) in
  match first_present pn_candidates cols, first_present qty_candidates cols with
  | Some pn, Some qty =>
      let d := dict_set qty "Quantity" (dict_set pn "Vendor Part Number" []) in
      let cols := map (rename d) cols in
      match ambiguous ["Vendor Part Number"; "Quantity"] cols with
      | Some c => inl (AmbiguousLabel c)
      | None =>
          let part_numbers :=
            map (fun row => strip (astype_str (cell_at "Vendor Part Number" cols row)))
                (rows df) in
          let quantity :=
            fillna0 (to_numeric (map (cell_at "Quantity" cols) (rows df))) in
          inr (groupby_sum part_numbers quantity)
      end
  | _, _ => inl (PurchaseColumns cols pn_candidates qty_candidates)
  end.

End Ledger.

End Dtype.

(** Stand-in for the integer reading of text, for the examples: decimal
    digits read as that integer. *)
Fixpoint read_int_digits (acc : Z) (s : string) : option Z :=
  match s with
  | EmptyString => Some acc
  | String c s' =>
      let n := nat_of_ascii c in
      if ((48 <=? n) && (n <=? 57))%nat
      then read_int_digits (acc * 10 + Z.of_nat (n - 48))%Z s'
      else None
  end.

Definition sample_parse_int (s : string) : option Z :=
  match s with
  | EmptyString => None
  | _ => read_int_digits 0%Z s
  end.

(** A row of the edited table with integer columns, and a ledger whose
    part numbers carry blanks. *)
Definition edited_plain : NumRow :=
  mkNumRow "A-1" "cap" (NInt 50) (NInt 40) (NInt 1000).

Definition ledger_padded : Dtype.DataFrame :=
  Dtype.mkDataFrame ["Part Number"; "Qty"]
    [[Dtype.VStr " A-1"; Dtype.VInt 100]; [Dtype.VStr "B-2"; Dtype.VInt 7];
     [Dtype.VStr "A-1 "; Dtype.VInt 250]].

Definition ledger_with_note : Dtype.DataFrame :=
  Dtype.mkDataFrame ["Note"; "Qty"; "Part Number"]
    [[Dtype.VStr "x"; Dtype.VInt 100; Dtype.VStr "A-1"];
     [Dtype.VStr "y"; Dtype.VInt 250; Dtype.VStr "A-1"]].

(** * Properties *)

(** ** Dictionaries and membership *)

Lemma mem_In (x : string) (l : list string) : mem x l = true <-> In x l.
Proof.
  unfold mem. rewrite existsb_exists. split.
  - intros (y & Hy & E). apply String.eqb_eq in E. now subst.
  - intros H. exists x. split; [assumption | apply String.eqb_refl].
Qed.

Lemma mem_false (x : string) (l : list string) : mem x l = false <-> ~ In x l.
Proof.
  rewrite <- mem_In. destruct (mem x l); split; congruence.
Qed.

Lemma mem_ext (x : string) (l1 l2 : list string) :
  (forall h, In h l1 <-> In h l2) -> mem x l1 = mem x l2.
Proof.
  intros H. destruct (mem x l2) eqn:E.
  - apply mem_In, H, mem_In, E.
  - apply mem_false. intros Hx. apply H, mem_In in Hx. congruence.
Qed.

Lemma dict_get_set {A} (k k' : string) (v : A) (d : dict A) :
  dict_get k (dict_set k' v d) = if String.eqb k k' then Some v else dict_get k d.
Proof.
  induction d as [|[k0 v0] d IH]; simpl.
  - reflexivity.
  - destruct (String.eqb k' k0) eqn:E0; simpl.
    + apply String.eqb_eq in E0. subst k0.
      destruct (String.eqb k k'); reflexivity.
    + destruct (String.eqb k k0) eqn:E1.
      * apply String.eqb_eq in E1. subst k0.
        rewrite String.eqb_sym, E0. reflexivity.
      * apply IH.
Qed.

Lemma dict_get_In {A} (k : string) (v : A) (d : dict A) :
  NoDup (dict_keys d) -> In (k, v) d -> dict_get k d = Some v.
Proof.
  induction d as [|[k0 v0] d IH]; simpl; intros ND HIn.
  - contradiction.
  - inversion ND as [|? ? Hk ND']; subst.
    destruct HIn as [E | HIn].
    + inversion E; subst. now rewrite String.eqb_refl.
    + destruct (String.eqb k k0) eqn:E.
      * apply String.eqb_eq in E. subst k0. exfalso. apply Hk.
        change k with (fst (k, v)). now apply in_map.
      * now apply IH.
Qed.

Lemma dict_get_Some_In {A} (k : string) (v : A) (d : dict A) :
  dict_get k d = Some v -> In (k, v) d.
Proof.
  induction d as [|[k0 v0] d IH]; simpl; [discriminate|].
  destruct (String.eqb k k0) eqn:E.
  - apply String.eqb_eq in E. intros [= ->]. subst. now left.
  - intros H. right. now apply IH.
Qed.

Lemma dict_get_None {A} (k : string) (d : dict A) :
  dict_get k d = None <-> ~ In k (dict_keys d).
Proof.
  induction d as [|[k0 v0] d IH]; simpl.
  - tauto.
  - destruct (String.eqb k k0) eqn:E.
    + apply String.eqb_eq in E. subst. split; [discriminate | tauto].
    + apply String.eqb_neq in E. rewrite IH. split.
      * intros H [H' | H']; [now apply E | now apply H].
      * tauto.
Qed.

(** ** The first alias present *)

Lemma first_present_Some (options columns : list string) (a : string) :
  first_present options columns = Some a ->
  exists before after,
    options = before ++ a :: after /\ In a columns /\
    (forall b, In b before -> ~ In b columns).
Proof.
  unfold first_present. induction options as [|o options IH]; simpl.
  - discriminate.
  - destruct (mem o columns) eqn:E.
    + intros [= ->]. exists [], options. repeat split.
      * now apply mem_In.
      * contradiction.
    + intros H. destruct (IH H) as (before & after & -> & Ha & Hb).
      exists (o :: before), after. repeat split; trivial.
      intros b [<- | Hin]; [now apply mem_false | now apply Hb].
Qed.

Lemma first_present_None (options columns : list string) :
  first_present options columns = None <->
  (forall opt, In opt options -> ~ In opt columns).
Proof.
  unfold first_present. split.
  - intros H opt Hopt. apply mem_false.
    now apply (find_none _ _ H).
  - induction options as [|o options IH]; simpl; intros H.
    + reflexivity.
    + assert (E : mem o columns = false) by (apply mem_false, H; now left).
      rewrite E. apply IH. intros opt Hopt. apply H. now right.
Qed.

Lemma first_present_In (options columns : list string) (a : string) :
  first_present options columns = Some a -> In a options /\ In a columns.
Proof.
  intros H. destruct (first_present_Some _ _ _ H) as (b & c & -> & Ha & _).
  split; [apply in_elt | assumption].
Qed.

Lemma first_present_ext (options c1 c2 : list string) :
  (forall h, In h c1 <-> In h c2) ->
  first_present options c1 = first_present options c2.
Proof.
  intros H. unfold first_present.
  induction options as [|o options IH]; simpl.
  - reflexivity.
  - rewrite (mem_ext o c1 c2 H), IH. reflexivity.
Qed.

Lemma first_present_forallb (options columns : list string) :
  forallb (fun opt => negb (mem opt columns)) options
  = match first_present options columns with Some _ => false | None => true end.
Proof.
  unfold first_present. induction options as [|o options IH]; simpl.
  - reflexivity.
  - destruct (mem o columns); simpl; [reflexivity | apply IH].
Qed.

(** ** The resolved dictionary *)

Lemma dict_set_fresh {A} (k : string) (v : A) (d : dict A) :
  ~ In k (dict_keys d) -> dict_set k v d = d ++ [(k, v)].
Proof.
  unfold dict_keys. induction d as [|[k0 v0] d IH]; simpl; intros H.
  - reflexivity.
  - destruct (String.eqb k k0) eqn:E.
    + apply String.eqb_eq in E. subst k0. tauto.
    + rewrite IH; [reflexivity | tauto].
Qed.

Lemma binding_keys (columns : list string) (candidates : dict (list string)) (k : string) :
  In k (dict_keys (flat_map (binding columns) candidates)) ->
  In k (dict_keys candidates).
Proof.
  unfold dict_keys. induction candidates as [|[t options] cands IH]; simpl.
  - trivial.
  - rewrite map_app, in_app_iff. intros [H | H]; [left | right; now apply IH].
    unfold binding in H. simpl in H.
    destruct (first_present options columns); simpl in H; tauto.
Qed.

Lemma resolve_fold (columns : list string) (candidates : dict (list string))
      (acc : dict string) :
  NoDup (dict_keys acc ++ dict_keys candidates) ->
  fold_left
    (fun resolved '(target, options) =>
       match first_present options columns with
       | Some opt => dict_set target opt resolved
       | None => resolved
       end)
    candidates acc
  = acc ++ flat_map (binding columns) candidates.
Proof.
  revert acc. induction candidates as [|[t options] cands IH]; simpl; intros acc ND.
  - now rewrite app_nil_r.
  - unfold binding at 1. simpl.
    assert (Ht : ~ In t (dict_keys acc)).
    { intros Hin. apply NoDup_remove_2 in ND. apply ND, in_or_app. now left. }
    destruct (first_present options columns) as [opt|].
    + rewrite IH.
      * rewrite dict_set_fresh by assumption. now rewrite <- app_assoc.
      * rewrite dict_set_fresh by assumption. unfold dict_keys in *.
        rewrite map_app, <- app_assoc. exact ND.
    + apply IH. now apply NoDup_remove_1 in ND.
Qed.

Lemma resolve_bindings (columns : list string) (candidates : dict (list string)) :
  NoDup (dict_keys candidates) ->
  resolve candidates columns = flat_map (binding columns) candidates.
Proof.
  intros ND. unfold resolve. now rewrite resolve_fold.
Qed.

Lemma bindings_NoDup (columns : list string) (candidates : dict (list string)) :
  NoDup (dict_keys candidates) ->
  NoDup (dict_keys (flat_map (binding columns) candidates)).
Proof.
  unfold dict_keys. induction candidates as [|[t options] cands IH]; simpl; intros ND.
  - constructor.
  - inversion ND as [|? ? Ht ND']; subst. unfold binding at 1. simpl.
    destruct (first_present options columns); simpl; [constructor|]; auto.
    intros Hin. apply Ht. now apply (binding_keys columns).
Qed.

(** Each field is resolved from its own alias list and the labels alone. *)
Lemma resolve_get (columns : list string) (candidates : dict (list string))
      (target : string) (options : list string) :
  NoDup (dict_keys candidates) ->
  In (target, options) candidates ->
  dict_get target (resolve candidates columns) = first_present options columns.
Proof.
  intros ND HIn. rewrite resolve_bindings by assumption.
  destruct (first_present options columns) as [a|] eqn:E.
  - apply dict_get_In; [now apply bindings_NoDup|].
    apply in_flat_map. exists (target, options). split; [assumption|].
    unfold binding. simpl. rewrite E. now left.
  - apply dict_get_None. intros Hin.
    unfold dict_keys in Hin. apply in_map_iff in Hin.
    destruct Hin as ([t a] & Ht & Hin). simpl in Ht. subst t.
    apply in_flat_map in Hin. destruct Hin as ([t' o'] & Hc & Hb).
    unfold binding in Hb. simpl in Hb.
    destruct (first_present o' columns) as [a'|] eqn:E'; [|contradiction].
    destruct Hb as [Hb | []]. inversion Hb; subst.
    assert (o' = options).
    { pose proof (dict_get_In _ _ _ ND Hc) as H1.
      pose proof (dict_get_In _ _ _ ND HIn) as H2. congruence. }
    congruence.
Qed.

Lemma filter_map_fst {A} (f : string -> bool) (g : string * A -> bool)
      (l : list (string * A)) :
  (forall x, In x l -> f (fst x) = g x) ->
  filter f (map fst l) = map fst (filter g l).
Proof.
  induction l as [|x l IH]; simpl; intros H.
  - reflexivity.
  - rewrite (H x) by now left. rewrite IH by (intros; apply H; now right).
    destruct (g x); reflexivity.
Qed.

(** The list [missing] of line 48 holds the fields without any alias among
    the labels, in the order of the candidate table. *)
Lemma missing_unresolved (columns : list string) (candidates : dict (list string)) :
  NoDup (dict_keys candidates) ->
  missing_of candidates (resolve candidates columns)
  = unresolved_fields candidates columns.
Proof.
  intros ND. unfold missing_of, unresolved_fields, dict_keys.
  apply filter_map_fst. intros [t options] HIn. simpl.
  unfold dict_has. rewrite (resolve_get _ _ _ _ ND HIn).
  rewrite first_present_forallb.
  destruct (first_present options columns); reflexivity.
Qed.

Lemma In_unresolved (columns : list string) (candidates : dict (list string))
      (target : string) :
  In target (unresolved_fields candidates columns) <->
  exists options, In (target, options) candidates /\
                  forall opt, In opt options -> ~ In opt columns.
Proof.
  unfold unresolved_fields. rewrite in_map_iff. split.
  - intros ([t options] & <- & H). apply filter_In in H. destruct H as [HIn Hf].
    exists options. split; [assumption|].
    rewrite first_present_forallb in Hf. apply first_present_None.
    simpl. destruct (first_present options columns); [discriminate | reflexivity].
  - intros (options & HIn & H). exists (target, options). split; [reflexivity|].
    apply filter_In. split; [assumption|].
    rewrite first_present_forallb.
    apply first_present_None in H. now rewrite H.
Qed.

Lemma candidates_keys_NoDup : NoDup (dict_keys col_map_candidates).
Proof.
  replace (dict_keys col_map_candidates)
    with (nodup string_dec (dict_keys col_map_candidates)) by reflexivity.
  apply NoDup_nodup.
Qed.

Lemma candidates_aliases_NoDup : NoDup (flat_map snd col_map_candidates).
Proof.
  replace (flat_map snd col_map_candidates)
    with (nodup string_dec (flat_map snd col_map_candidates)) by reflexivity.
  apply NoDup_nodup.
Qed.

Lemma candidates_lower_NoDup : NoDup (map lower (flat_map snd col_map_candidates)).
Proof.
  replace (map lower (flat_map snd col_map_candidates))
    with (nodup string_dec (map lower (flat_map snd col_map_candidates)))
    by reflexivity.
  apply NoDup_nodup.
Qed.

Lemma NoDup_map_inj {A B} (f : A -> B) (l : list A) (x y : A) :
  NoDup (map f l) -> In x l -> In y l -> f x = f y -> x = y.
Proof.
  induction l as [|a l IH]; simpl; intros ND Hx Hy E.
  - contradiction.
  - inversion ND as [|? ? Ha ND']; subst.
    destruct Hx as [<- | Hx], Hy as [<- | Hy]; trivial.
    + exfalso. apply Ha. rewrite E. now apply in_map.
    + exfalso. apply Ha. rewrite <- E. now apply in_map.
    + now apply IH.
Qed.

(** ** The renaming dictionary *)

Lemma rename_fold_other (l : dict string) (acc : dict string) (a : string) :
  ~ In a (map snd l) ->
  dict_get a (fold_left (fun d '(k, opt) => dict_set opt k d) l acc)
  = dict_get a acc.
Proof.
  revert acc. induction l as [|[k0 a0] l IH]; simpl; intros acc H.
  - reflexivity.
  - rewrite IH by tauto. rewrite dict_get_set.
    destruct (String.eqb a a0) eqn:E; [|reflexivity].
    apply String.eqb_eq in E. subst. tauto.
Qed.

Lemma rename_fold_get (l : dict string) (acc : dict string) (k a : string) :
  NoDup (map snd l) -> In (k, a) l ->
  dict_get a (fold_left (fun d '(k, opt) => dict_set opt k d) l acc) = Some k.
Proof.
  revert acc. induction l as [|[k0 a0] l IH]; simpl; intros acc ND HIn.
  - contradiction.
  - inversion ND as [|? ? Ha ND']; subst. destruct HIn as [E | HIn].
    + inversion E; subst. rewrite rename_fold_other by assumption.
      rewrite dict_get_set. now rewrite String.eqb_refl.
    + now apply IH.
Qed.

Lemma binding_values (columns : list string) (candidates : dict (list string))
      (a : string) :
  In a (map snd (flat_map (binding columns) candidates)) ->
  In a (flat_map snd candidates).
Proof.
  induction candidates as [|[t options] cands IH]; simpl.
  - trivial.
  - rewrite map_app, !in_app_iff. intros [H | H]; [left | right; now apply IH].
    unfold binding in H. simpl in H.
    destruct (first_present options columns) as [o|] eqn:E; simpl in H.
    + destruct H as [<- | []]. now apply first_present_In in E.
    + contradiction.
Qed.

Lemma bindings_values_NoDup (columns : list string) (candidates : dict (list string)) :
  NoDup (flat_map snd candidates) ->
  NoDup (map snd (flat_map (binding columns) candidates)).
Proof.
  induction candidates as [|[t options] cands IH]; simpl; intros ND.
  - constructor.
  - rewrite map_app. unfold binding at 1. simpl.
    pose proof (NoDup_app_remove_l _ _ ND) as ND'.
    destruct (first_present options columns) as [o|] eqn:E; simpl; [|auto].
    constructor; [|auto]. intros Hin. apply binding_values in Hin.
    apply first_present_In in E. destruct E as [Ho _].
    revert ND Ho Hin. clear. induction options as [|x options IH]; simpl.
    + contradiction.
    + intros ND [<- | Ho] Hin.
      * inversion ND; subst. apply H1, in_or_app. now right.
      * inversion ND; subst. now apply IH.
Qed.

(** The column found under the alias a field is bound to takes the field's
    name. *)
Lemma rename_bound (columns : list string) (candidates : dict (list string))
      (target : string) (options : list string) (a : string) :
  NoDup (dict_keys candidates) -> NoDup (flat_map snd candidates) ->
  In (target, options) candidates ->
  first_present options columns = Some a ->
  rename (rename_dict (resolve candidates columns)) a = target.
Proof.
  intros NDk NDa HIn E. unfold rename, rename_dict.
  rewrite (rename_fold_get _ _ target a).
  - reflexivity.
  - rewrite resolve_bindings by assumption. now apply bindings_values_NoDup.
  - apply dict_get_Some_In. now rewrite (resolve_get _ _ _ options).
Qed.

Lemma alias_of_candidates (target : string) (options : list string) (a : string) :
  In (target, options) col_map_candidates -> In a options ->
  In a (flat_map snd col_map_candidates).
Proof.
  intros HIn Ha. apply in_flat_map. now exists (target, options).
Qed.

(** ** Header resolution in [normalize_cols] *)

Lemma normalize_cols_cases (df : DataFrame) :
  let found := map strip (columns df) in
  normalize_cols df =
  match unresolved_fields col_map_candidates found with
  | [] => inr (mkDataFrame
                 (map (rename (rename_dict (resolve col_map_candidates found))) found)
                 (rows df))
  | _ :: _ => inl (MissingColumns (unresolved_fields col_map_candidates found) found)
  end.
Proof.
  intros found. unfold normalize_cols. fold found.
  rewrite (missing_unresolved found _ candidates_keys_NoDup).
  destruct (unresolved_fields col_map_candidates found); reflexivity.
Qed.

(** C7: [normalize_cols] raises exactly when some canonical field has none
    of its aliases among the trimmed headers; what it raises then carries
    the list of exactly those fields and the full list of trimmed headers;
    in particular a table without any alias of [Weight (g)] raises, with
    [Weight (g)] among the fields listed. *)
Theorem normalize_cols_schema_error (df : DataFrame) :
  let found := map strip (columns df) in
  let unresolved target :=
    exists options, In (target, options) col_map_candidates /\
                    forall opt, In opt options -> ~ In opt found in
  ((exists e, normalize_cols df = inl e) <-> (exists target, unresolved target))
  /\ (forall e, normalize_cols df = inl e ->
        exists missing,
          e = MissingColumns missing found /\
          forall target, In target missing <-> unresolved target)
  /\ (unresolved "Weight (g)" ->
        exists missing,
          normalize_cols df = inl (MissingColumns missing found) /\
          In "Weight (g)" missing).
Proof.
  intros found unresolved.
  assert (Hu : forall target,
             In target (unresolved_fields col_map_candidates found)
             <-> unresolved target)
    by (intros; apply In_unresolved).
  pose proof (normalize_cols_cases df) as Hc. cbv zeta in Hc. fold found in Hc.
  repeat split.
  - intros [e He]. rewrite Hc in He.
    destruct (unresolved_fields col_map_candidates found) as [|t l] eqn:E;
      [discriminate|].
    exists t. apply Hu. now left.
  - intros [t Ht]. apply Hu in Ht. rewrite Hc.
    destruct (unresolved_fields col_map_candidates found) as [|t' l] eqn:E;
      [contradiction|].
    eexists. reflexivity.
  - intros e He. rewrite Hc in He.
    destruct (unresolved_fields col_map_candidates found) as [|t l] eqn:E;
      [discriminate|].
    inversion He; subst e. eexists. split; [reflexivity|]. exact Hu.
  - intros Hw. apply Hu in Hw. rewrite Hc.
    destruct (unresolved_fields col_map_candidates found) as [|t' l] eqn:E;
      [contradiction|].
    eexists. split; [reflexivity | exact Hw].
Qed.

(** C8: a canonical field with an alias among the headers is bound to the
    first alias of its own list that is a header (no earlier alias is a
    header); the binding is read off the field's alias list and the set of
    headers alone, so neither the other fields nor the order of the columns
    change it; on success the column found under that alias carries the
    canonical name. *)
Theorem normalize_cols_first_alias (df : DataFrame) (target : string)
        (options : list string) :
  let found := map strip (columns df) in
  In (target, options) col_map_candidates ->
  (exists opt, In opt options /\ In opt found) ->
  exists before a after,
    options = before ++ a :: after
    /\ In a found
    /\ (forall b, In b before -> ~ In b found)
    /\ dict_get target (resolve col_map_candidates found) = Some a
    /\ first_present options found = Some a
    /\ (forall labels,
          (forall h, In h labels <-> In h found) ->
          dict_get target (resolve col_map_candidates labels) = Some a)
    /\ (forall df' i,
          normalize_cols df = inr df' ->
          nth_error found i = Some a ->
          nth_error (columns df') i = Some target).
Proof.
  intros found HIn (opt & Hopt & Hfound).
  destruct (first_present options found) as [a|] eqn:E.
  - destruct (first_present_Some _ _ _ E) as (before & after & Ho & Ha & Hb).
    exists before, a, after. repeat split; trivial.
    + now rewrite (resolve_get _ _ _ options candidates_keys_NoDup HIn).
    + intros labels Hl.
      rewrite (resolve_get _ _ _ options candidates_keys_NoDup HIn).
      now rewrite (first_present_ext options labels found Hl).
    + intros df' i Hn Hi. unfold normalize_cols in Hn. fold found in Hn.
      destruct (missing_of col_map_candidates (resolve col_map_candidates found));
        [|discriminate].
      inversion Hn; subst df'. simpl.
      rewrite nth_error_map, Hi. simpl. f_equal.
      apply (rename_bound found col_map_candidates target options a);
        auto using candidates_keys_NoDup, candidates_aliases_NoDup.
  - exfalso. apply (proj1 (first_present_None options found) E opt); assumption.
Qed.

Lemma ledger_lower_NoDup :
  NoDup (map lower pn_candidates) /\ NoDup (map lower qty_candidates).
Proof.
  split.
  - replace (map lower pn_candidates)
      with (nodup string_dec (map lower pn_candidates)) by reflexivity.
    apply NoDup_nodup.
  - replace (map lower qty_candidates)
      with (nodup string_dec (map lower qty_candidates)) by reflexivity.
    apply NoDup_nodup.
Qed.

(** A header that is a case variant of an alias is none of the aliases. *)
Lemma case_variant_not_alias (aliases : list string) (alias h : string) :
  NoDup (map lower aliases) -> In alias aliases ->
  lower h = lower alias -> h <> alias -> ~ In h aliases.
Proof.
  intros ND Ha El Hne Hh. apply Hne.
  now apply (NoDup_map_inj lower aliases h alias).
Qed.

Lemma NoDup_map_sub {A B} (f : A -> B) (l : list (string * list A))
      (k : string) (v : list A) :
  NoDup (map f (flat_map snd l)) -> In (k, v) l -> NoDup (map f v).
Proof.
  induction l as [|[k0 v0] l IH]; simpl; intros ND HIn.
  - contradiction.
  - rewrite map_app in ND. destruct HIn as [E | HIn].
    + inversion E; subst. now apply NoDup_app_remove_r in ND.
    + apply IH; [|assumption]. now apply NoDup_app_remove_l in ND.
Qed.

Section Loaders.

Variable parse_float : string -> float.
Variable num_str : float -> string.

Lemma load_xlsx_schema_error (df : DataFrame) (e : Exn) :
  normalize_cols df = inl e -> load_xlsx parse_float num_str df = inl e.
Proof.
  intros H. unfold load_xlsx. now rewrite H.
Qed.

(** C10: header matching is exact on the trimmed header, letter case
    included.  For the catalog: a header that differs from an alias of a
    field in letter case only is never what the field is bound to, and when
    no alias of the field is a header the load raises the missing-columns
    error, naming the field.  For the ledger: such a header is never chosen
    for the part number or the quantity, and when no accepted header of one
    of the two is present the load raises its missing-columns error. *)
Theorem header_match_is_case_sensitive (df : DataFrame) :
  let found := map strip (columns df) in
  (forall target options alias h,
     In (target, options) col_map_candidates ->
     In alias options -> lower h = lower alias -> h <> alias ->
     dict_get target (resolve col_map_candidates found) <> Some h
     /\ ((forall opt, In opt options -> ~ In opt found) ->
         exists missing,
           load_xlsx parse_float num_str df = inl (MissingColumns missing found)
           /\ In target missing))
  /\ (forall candidates alias h,
        candidates = pn_candidates \/ candidates = qty_candidates ->
        In alias candidates -> lower h = lower alias -> h <> alias ->
        first_present candidates found <> Some h
        /\ ((forall opt, In opt candidates -> ~ In opt found) ->
            load_purchase_csv parse_float num_str df
            = inl (PurchaseColumns found pn_candidates qty_candidates))).
Proof.
  intros found. split.
  - intros target options alias h HIn Ha El Hne. split.
    + rewrite (resolve_get _ _ _ options candidates_keys_NoDup HIn).
      intros E. apply first_present_In in E. destruct E as [Hh _].
      revert Hh. apply (case_variant_not_alias options alias h); trivial.
      apply (NoDup_map_sub lower col_map_candidates target options);
        [apply candidates_lower_NoDup | assumption].
    + intros Hnone.
      pose proof (normalize_cols_cases df) as Hc. cbv zeta in Hc. fold found in Hc.
      assert (Ht : In target (unresolved_fields col_map_candidates found))
        by (apply In_unresolved; now exists options).
      destruct (unresolved_fields col_map_candidates found) as [|t l] eqn:E;
        [contradiction|].
      eexists. split; [|exact Ht].
      now apply load_xlsx_schema_error.
  - intros candidates alias h Hc Ha El Hne. split.
    + intros E. apply first_present_In in E. destruct E as [Hh _].
      revert Hh. apply (case_variant_not_alias candidates alias h); trivial.
      destruct Hc as [-> | ->]; apply ledger_lower_NoDup.
    + intros Hnone. apply first_present_None in Hnone.
      unfold load_purchase_csv. fold found.
      destruct Hc as [-> | ->]; rewrite Hnone.
      * reflexivity.
      * destruct (first_present pn_candidates found); reflexivity.
Qed.

End Loaders.

(** ** Binary64 arithmetic: when a quotient or a product is finite, or zero *)

Lemma digits2_pos_size (p : positive) : digits2_pos p = Pos.size p.
Proof. induction p; simpl; congruence. Qed.

Lemma Zdigits2_log2 (m : Z) : (0 < m)%Z -> Zdigits2 m = (Z.log2 m + 1)%Z.
Proof.
  destruct m as [|p|p]; try lia. intros _. simpl.
  rewrite digits2_pos_size. destruct p; simpl; lia.
Qed.

Lemma Zdigits2_nonneg (m : Z) : (0 <= Zdigits2 m)%Z.
Proof. destruct m; simpl; lia. Qed.

Lemma Zdigits2_mono (a b : Z) : (0 <= a <= b)%Z -> (Zdigits2 a <= Zdigits2 b)%Z.
Proof.
  intros H. destruct (Z.eq_dec a 0) as [-> | Ha].
  - apply Zdigits2_nonneg.
  - rewrite !Zdigits2_log2 by lia.
    pose proof (Z.log2_le_mono a b). lia.
Qed.

Lemma Zdigits2_succ (a : Z) : (0 <= a)%Z -> (Zdigits2 (a + 1) <= Zdigits2 a + 1)%Z.
Proof.
  intros H. destruct (Z.eq_dec a 0) as [-> | Ha].
  - simpl. lia.
  - rewrite !Zdigits2_log2 by lia.
    pose proof (Z.log2_succ_le a). unfold Z.succ in *. lia.
Qed.

Lemma Zdigits2_shiftl (a n : Z) :
  (0 < a)%Z -> (0 <= n)%Z -> Zdigits2 (Z.shiftl a n) = (Zdigits2 a + n)%Z.
Proof.
  intros Ha Hn.
  assert (0 < Z.shiftl a n)%Z.
  { rewrite Z.shiftl_mul_pow2 by lia.
    pose proof (Z.pow_pos_nonneg 2 n). nia. }
  rewrite !Zdigits2_log2 by lia. rewrite Z.log2_shiftl by lia. lia.
Qed.

Lemma shr_1_digits (mrs : shr_record) :
  (0 <= shr_m mrs)%Z ->
  (0 <= shr_m (shr_1 mrs))%Z /\
  Zdigits2 (shr_m (shr_1 mrs)) = Z.max (Zdigits2 (shr_m mrs) - 1) 0.
Proof.
  destruct mrs as [m r s]. cbn [shr_m]. intros Hm.
  destruct m as [|p|p]; [| |lia].
  - cbn. lia.
  - destruct p; cbn [shr_1 shr_m Zdigits2 digits2_pos];
      rewrite ?Pos2Z.inj_succ; lia.
Qed.

Lemma shr_iter_digits (p : positive) (mrs : shr_record) :
  (0 <= shr_m mrs)%Z ->
  (0 <= shr_m (SpecFloat.iter_pos shr_1 p mrs))%Z /\
  Zdigits2 (shr_m (SpecFloat.iter_pos shr_1 p mrs))
  = Z.max (Zdigits2 (shr_m mrs) - Zpos p) 0.
Proof.
  revert mrs. induction p as [p IH | p IH |]; intros mrs Hm; simpl.
  - destruct (shr_1_digits mrs Hm) as [H1 E1].
    destruct (IH _ H1) as [H2 E2]. destruct (IH _ H2) as [H3 E3].
    split; [assumption|]. rewrite E3, E2, E1. lia.
  - destruct (IH _ Hm) as [H2 E2]. destruct (IH _ H2) as [H3 E3].
    split; [assumption|]. rewrite E3, E2. lia.
  - apply shr_1_digits, Hm.
Qed.

Lemma shr_m_of_loc (m : Z) (l : location) : shr_m (shr_record_of_loc m l) = m.
Proof. destruct l as [|[| |]]; reflexivity. Qed.

Lemma shr_fexp_bound (m e : Z) (l : location) :
  (0 <= m)%Z ->
  (0 <= shr_m (fst (shr_fexp prec emax m e l)))%Z /\
  snd (shr_fexp prec emax m e l) = Z.max e (fexp prec emax (Zdigits2 m + e)) /\
  (Zdigits2 (shr_m (fst (shr_fexp prec emax m e l))) + snd (shr_fexp prec emax m e l)
   <= Z.max (Zdigits2 m + e) (snd (shr_fexp prec emax m e l)))%Z.
Proof.
  intros Hm. unfold shr_fexp, shr.
  destruct (fexp prec emax (Zdigits2 m + e) - e)%Z as [|p|p] eqn:E; simpl;
    rewrite ?shr_m_of_loc; try (repeat split; lia).
  assert (H0 : (0 <= shr_m (shr_record_of_loc m l))%Z)
    by now rewrite shr_m_of_loc.
  destruct (shr_iter_digits p _ H0) as [H1 E1].
  rewrite shr_m_of_loc in E1. rewrite E1. repeat split; lia.
Qed.

Lemma round_nearest_even_bound (m : Z) (l : location) :
  (0 <= m)%Z ->
  (0 <= round_nearest_even m l)%Z /\
  (Zdigits2 (round_nearest_even m l) <= Zdigits2 m + 1)%Z.
Proof.
  intros Hm. pose proof (Zdigits2_succ m Hm).
  destruct l as [|[| |]]; simpl; try destruct (Z.even m); split; lia.
Qed.

Lemma binary_round_aux_real (sx : bool) (mx ex : Z) (lx : location) :
  (0 <= mx)%Z -> (ex <= 900)%Z -> (Zdigits2 mx + ex <= 900)%Z ->
  sf_real (binary_round_aux prec emax sx mx ex lx) = true.
Proof.
  intros Hm He Hd. unfold binary_round_aux.
  destruct (shr_fexp_bound mx ex lx Hm) as (H1 & E1 & D1).
  destruct (shr_fexp prec emax mx ex lx) as [mrs' e']. simpl in H1, E1, D1.
  destruct (round_nearest_even_bound (shr_m mrs') (loc_of_shr_record mrs') H1)
    as [H2 D2].
  destruct (shr_fexp_bound _ e' loc_Exact H2) as (H3 & E3 & D3).
  destruct (shr_fexp prec emax _ e' loc_Exact) as [mrs'' e'']. simpl in H3, E3, D3.
  unfold fexp, emin, prec, emax in *.
  destruct (shr_m mrs'') as [|p|p]; [reflexivity | | lia].
  replace (e'' <=? 1024 - 53)%Z with true by (symmetry; apply Z.leb_le; lia).
  reflexivity.
Qed.

Lemma bounded_digits (m : positive) (e : Z) :
  bounded prec emax m e = true -> (Zpos (digits2_pos m) <= 53)%Z.
Proof.
  unfold bounded, canonical_mantissa, fexp, emin, prec, emax.
  intros H. apply andb_prop in H. destruct H as [H _].
  apply Z.eqb_eq in H. lia.
Qed.

Lemma SFdiv_real (sx sy : bool) (mx my : positive) (ex ey : Z) :
  bounded prec emax mx ex = true -> (ex - ey <= 800)%Z ->
  sf_real (SFdiv prec emax (S754_finite sx mx ex) (S754_finite sy my ey)) = true.
Proof.
  intros Hb He. apply bounded_digits in Hb.
  unfold SFdiv, SFdiv_core_binary.
  set (e' := Z.min _ _).
  assert (He' : (e' <= ex - ey)%Z) by (unfold e'; lia).
  set (m' := match (ex - ey - e')%Z with
             | Z0 => Zpos mx | Zpos _ => Z.shiftl (Zpos mx) (ex - ey - e') | Zneg _ => 0%Z end).
  assert (Hm' : (0 <= m')%Z /\ (Zdigits2 m' + e' <= Zpos (digits2_pos mx) + ex - ey)%Z).
  { unfold m'. destruct (ex - ey - e')%Z as [|p|p] eqn:E.
    - cbn [Zdigits2]. lia.
    - rewrite Zdigits2_shiftl by lia. cbn [Zdigits2].
      split; [apply Z.shiftl_nonneg; lia | lia].
    - lia. }
  destruct Hm' as [Hm0 Hm1].
  destruct (Z.div_eucl m' (Zpos my)) as [q r] eqn:E.
  assert (Hq : q = (m' / Zpos my)%Z) by (unfold Z.div; now rewrite E).
  assert (Hq0 : (0 <= q)%Z) by (subst q; apply Z.div_pos; lia).
  assert (Hq1 : (q <= m')%Z).
  { subst q. apply Z.div_le_upper_bound; [lia|]. nia. }
  pose proof (Zdigits2_mono q m' (conj Hq0 Hq1)).
  apply binary_round_aux_real; lia.
Qed.

Lemma SFeqb_refl_finite (s : bool) (m : positive) (e : Z) :
  SFeqb (S754_finite s m e) (S754_finite s m e) = true.
Proof.
  unfold SFeqb, SFcompare.
  destruct s; rewrite Z.compare_refl; rewrite (Pos.compare_cont_refl m Eq); reflexivity.
Qed.

Lemma is_nan_spec (x : float) : is_nan x = true <-> Prim2SF x = S754_nan.
Proof.
  unfold is_nan. rewrite FloatAxioms.eqb_spec.
  destruct (Prim2SF x) as [s|s| |s m e].
  - split; [discriminate | discriminate].
  - destruct s; split; discriminate.
  - split; reflexivity.
  - rewrite SFeqb_refl_finite. split; discriminate.
Qed.

Lemma is_zero_spec (x : float) :
  is_zero x = true <-> exists s, Prim2SF x = S754_zero s.
Proof.
  unfold is_zero. rewrite FloatAxioms.eqb_spec.
  change (Prim2SF PrimFloat.zero) with (S754_zero false).
  destruct (Prim2SF x) as [s|s| |s m e].
  - split; [intros _; now exists s | reflexivity].
  - destruct s; split; try discriminate; intros [? ?]; discriminate.
  - split; try discriminate; intros [? ?]; discriminate.
  - destruct s; split; try discriminate; intros [? ?]; discriminate.
Qed.

Lemma is_finite_spec (x : float) :
  is_finite x = true <-> sf_real (Prim2SF x) = true.
Proof.
  unfold is_finite, is_nan, is_infinity.
  rewrite !FloatAxioms.eqb_spec, abs_spec.
  change (Prim2SF PrimFloat.infinity) with (S754_infinity false).
  destruct (Prim2SF x) as [s|s| |s m e]; simpl.
  - split; reflexivity.
  - destruct s; split; discriminate.
  - split; discriminate.
  - rewrite SFeqb_refl_finite. simpl. split; reflexivity.
Qed.

Lemma is_zero_finite (x : float) : is_zero x = true -> is_finite x = true.
Proof.
  rewrite is_zero_spec, is_finite_spec. intros [s ->]. reflexivity.
Qed.

Lemma zero_mul_l (x y : float) :
  is_zero x = true -> is_finite y = true -> is_zero (x * y)%float = true.
Proof.
  rewrite !is_zero_spec, is_finite_spec, mul_spec. intros [s ->] Hy.
  destruct (Prim2SF y) as [sy|sy| |sy my ey]; try discriminate;
    eexists; reflexivity.
Qed.

Lemma zero_mul_r (x y : float) :
  is_finite x = true -> is_zero y = true -> is_zero (x * y)%float = true.
Proof.
  rewrite !is_zero_spec, is_finite_spec, mul_spec. intros Hx [s ->].
  destruct (Prim2SF x) as [sx|sx| |sx mx ex]; try discriminate;
    eexists; reflexivity.
Qed.

Lemma zero_div (x c : float) :
  is_zero x = true -> is_regular c -> is_zero (x / c)%float = true.
Proof.
  rewrite !is_zero_spec, div_spec. intros [s ->] (sc & mc & ec & ->).
  eexists; reflexivity.
Qed.

Lemma regular_GRAMS_PER_LB : is_regular GRAMS_PER_LB.
Proof. do 3 eexists. vm_compute. reflexivity. Qed.

Lemma regular_1000 : is_regular 1000%float.
Proof. do 3 eexists. vm_compute. reflexivity. Qed.

Lemma div_100_finite (p : float) :
  (0 <=? p)%float = true -> (p <=? 100)%float = true ->
  is_finite (p / 100)%float = true.
Proof.
  rewrite !FloatAxioms.leb_spec, is_finite_spec, div_spec.
  pose proof (Prim2SF_valid p) as Hv.
  change (Prim2SF 0%float) with (S754_zero false).
  change (Prim2SF 100%float) with (S754_finite false 7036874417766400 (-46)).
  destruct (Prim2SF p) as [s|s| |s m e].
  - reflexivity.
  - destruct s; discriminate.
  - discriminate.
  - intros H0 H100. destruct s; [discriminate|].
    apply SFdiv_real; [exact Hv|].
    unfold SFleb, SFcompare in H100.
    destruct (Z.compare_spec e (-46)) as [E | E | E]; [lia | lia | discriminate].
Qed.

(** ** Clipping and filling *)

Lemma clip_between (v : float) :
  is_nan v = false -> between 0 100 (clip 0 100 v).
Proof.
  intros Hn. unfold clip, between. rewrite Hn. simpl.
  destruct (0 <=? v)%float eqn:E0, (v <=? 100)%float eqn:E1;
    split; trivial; reflexivity.
Qed.

Lemma clip_inside (v : float) : between 0 100 v -> clip 0 100 v = v.
Proof.
  intros [H0 H1]. unfold clip. rewrite H0, H1, !orb_true_r. reflexivity.
Qed.

Lemma fillna_not_nan (v d : float) :
  is_nan d = false -> is_nan (fillna v d) = false.
Proof.
  intros Hd. unfold fillna. destruct (is_nan v) eqn:E; assumption.
Qed.

Lemma fillna_nan (v d : float) : is_nan v = true -> fillna v d = d.
Proof. intros H. unfold fillna. now rewrite H. Qed.

Lemma fillna_number (v d : float) : is_nan v = false -> fillna v d = v.
Proof. intros H. unfold fillna. now rewrite H. Qed.

Section Calculator.

Variable parse_float : string -> float.
Variable num_str : float -> string.

(** What a successful catalog load returns. *)
Lemma load_xlsx_rows (df : DataFrame) (parts : list PartRecord) :
  load_xlsx parse_float num_str df = inr parts ->
  exists df',
    normalize_cols df = inr df' /\
    parts =
    map (fun r => set_quantity (set_pcr r (clip 0 100 (pcr_pct r))) 0%float)
        (filter notna_part
           (map (read_part parse_float num_str (columns df')) (rows df'))).
Proof.
  unfold load_xlsx. destruct (normalize_cols df) as [e|df']; [discriminate|].
  destruct (ambiguous _ _); [discriminate|].
  intros [= <-]. exists df'. split; [reflexivity|]. now rewrite map_map.
Qed.

(** C4: every record a catalog load returns, and every record the
    calculator derives from the edited table, has its PCR percentage
    between 0 and 100, whatever the value read in the input. *)
Theorem pcr_percent_in_range :
  (forall (df : DataFrame) (parts : list PartRecord) (r : PartRecord),
      load_xlsx parse_float num_str df = inr parts ->
      In r parts -> between 0 100 (pcr_pct r))
  /\ (forall (edited : list EditedRow) (r : PartRecord),
         In r (coerce parse_float edited) -> between 0 100 (pcr_pct r)).
Proof.
  split.
  - intros df parts r Hl Hr.
    destruct (load_xlsx_rows df parts Hl) as (df' & _ & ->).
    apply in_map_iff in Hr. destruct Hr as (r0 & <- & Hr0).
    apply filter_In in Hr0. destruct Hr0 as [_ Hn]. cbn [pcr_pct set_quantity set_pcr].
    apply clip_between. unfold notna_part in Hn.
    apply negb_true_iff in Hn. apply orb_false_iff in Hn. tauto.
  - intros edited r Hr. unfold coerce in Hr.
    apply in_map_iff in Hr. destruct Hr as (e & <- & _).
    cbn [coerce_row pcr_pct]. apply clip_between.
    now apply fillna_not_nan.
Qed.

Lemma ltb_not_nan (x y : float) : (x <? y)%float = true -> is_nan x = false.
Proof.
  unfold is_nan. rewrite FloatAxioms.ltb_spec, FloatAxioms.eqb_spec.
  destruct (Prim2SF x) as [s|s| |s m e]; try discriminate; intros _.
  - reflexivity.
  - destruct s; reflexivity.
  - now rewrite SFeqb_refl_finite.
Qed.

Lemma leb_not_nan (x y : float) : (x <=? y)%float = true -> is_nan y = false.
Proof.
  unfold is_nan. rewrite FloatAxioms.leb_spec, FloatAxioms.eqb_spec.
  destruct (Prim2SF y) as [s|s| |s m e].
  - reflexivity.
  - destruct s; reflexivity.
  - destruct (Prim2SF x); discriminate.
  - now rewrite SFeqb_refl_finite.
Qed.

(** C6, as the code has it: the calculator reads a quantity or a weight
    that is not a number as 0 and keeps every number as it is, a negative
    one included; it reads a PCR percentage that is not a number as 0 and
    clips every other one into the range 0 to 100, leaving it unchanged
    when it is in the range already. *)
Theorem coerce_row_values (e : EditedRow) :
  let r := coerce_row parse_float e in
  let q := to_numeric parse_float (e_quantity e) in
  let w := to_numeric parse_float (e_weight e) in
  let p := to_numeric parse_float (e_pcr e) in
  (is_nan q = true -> quantity r = 0%float)
  /\ (is_nan q = false -> quantity r = q)
  /\ ((q <? 0)%float = true -> quantity r = q)
  /\ (is_nan w = true -> weight_g r = 0%float)
  /\ (is_nan w = false -> weight_g r = w)
  /\ ((w <? 0)%float = true -> weight_g r = w)
  /\ (is_nan p = true -> pcr_pct r = 0%float)
  /\ (is_nan p = false -> pcr_pct r = clip 0 100 p)
  /\ between 0 100 (pcr_pct r)
  /\ (between 0 100 p -> pcr_pct r = p).
Proof.
  cbn zeta. cbn [coerce_row quantity weight_g pcr_pct].
  repeat split.
  - apply fillna_nan.
  - apply fillna_number.
  - intros H. apply fillna_number. now apply ltb_not_nan in H.
  - apply fillna_nan.
  - apply fillna_number.
  - intros H. apply fillna_number. now apply ltb_not_nan in H.
  - intros H. now rewrite fillna_nan.
  - intros H. now rewrite fillna_number.
  - apply clip_between. now apply fillna_not_nan.
  - apply clip_between. now apply fillna_not_nan.
  - intros H. rewrite fillna_number; [now apply clip_inside|].
    destruct H as [H0 _]. now apply leb_not_nan in H0.
Qed.

End Calculator.

(** ** An [int64] read as a [float64] is finite *)

Lemma iter_xO_digits (d m : positive) :
  digits2_pos (Pos.iter xO m d) = (digits2_pos m + d)%positive.
Proof.
  revert m. induction d using Pos.peano_ind; intros m.
  - simpl. lia.
  - rewrite Pos.iter_succ. simpl. rewrite IHd. lia.
Qed.

Lemma binary_round_real (s : bool) (m : positive) :
  (Zpos (digits2_pos m) <= 64)%Z ->
  sf_real (binary_round prec emax s m 0) = true.
Proof.
  intros Hd. unfold binary_round, shl_align.
  destruct (fexp prec emax (Zpos (digits2_pos m) + 0) - 0)%Z as [|d|d] eqn:E.
  - apply binary_round_aux_real; cbn [Zdigits2]; lia.
  - apply binary_round_aux_real; cbn [Zdigits2]; lia.
  - unfold fexp, emin, prec, emax in *.
    apply binary_round_aux_real; cbn [Zdigits2]; try lia.
    rewrite iter_xO_digits. lia.
Qed.

Lemma of_uint63_finite (n : Uint63.int) : is_finite (of_uint63 n) = true.
Proof.
  rewrite is_finite_spec, of_uint63_spec.
  pose proof (Uint63.to_Z_bounded n) as Hb.
  unfold binary_normalize.
  destruct (Uint63.to_Z n) as [|m|m] eqn:E; [reflexivity| |lia].
  apply binary_round_real.
  change (Zpos (digits2_pos m)) with (Zdigits2 (Zpos m)).
  rewrite Zdigits2_log2 by lia.
  assert (Z.log2 (Zpos m) < 63)%Z; [|lia].
  apply Z.log2_lt_pow2; [lia|]. change Uint63.wB with (2 ^ 63)%Z in Hb. lia.
Qed.

Lemma opp_finite (x : float) : is_finite x = true -> is_finite (- x)%float = true.
Proof.
  rewrite !is_finite_spec, opp_spec.
  destruct (Prim2SF x) as [s|s| |s m e]; trivial.
Qed.

Lemma binary_round_opp (m : positive) (e : Z) :
  SFopp (binary_round prec emax false m e) = binary_round prec emax true m e.
Proof.
  unfold binary_round. destruct (shl_align _ _ _) as [mz ez].
  unfold binary_round_aux.
  destruct (shr_fexp prec emax (Zpos mz) ez loc_Exact) as [mrs' e'].
  destruct (shr_fexp prec emax _ e' loc_Exact) as [mrs'' e''].
  destruct (shr_m mrs''); [reflexivity | | reflexivity].
  destruct (e'' <=? emax - prec)%Z; reflexivity.
Qed.

(** [of_int64] is the rounding of the integer to binary64, to nearest with
    ties to even. *)
Lemma of_int64_spec (z : Z) :
  (-9223372036854775808 <= z < 9223372036854775808)%Z ->
  Prim2SF (of_int64 z) = binary_normalize prec emax z 0 false.
Proof.
  intros H. unfold of_int64.
  destruct (Z.eqb_spec z (-9223372036854775808)) as [-> | Hne].
  { vm_compute. reflexivity. }
  destruct (Z.ltb_spec z 0) as [Hlt | Hge].
  - rewrite opp_spec, of_uint63_spec, Uint63.of_Z_spec.
    change Uint63.wB with 9223372036854775808%Z.
    rewrite Z.mod_small by lia.
    destruct z as [|p|p]; try lia. cbn [Z.opp binary_normalize].
    apply binary_round_opp.
  - rewrite of_uint63_spec, Uint63.of_Z_spec.
    change Uint63.wB with 9223372036854775808%Z.
    now rewrite Z.mod_small by lia.
Qed.

Lemma of_int64_finite (z : Z) : is_finite (of_int64 z) = true.
Proof.
  unfold of_int64. destruct (z =? _)%Z; [reflexivity|].
  destruct (z <? 0)%Z; [apply opp_finite|]; apply of_uint63_finite.
Qed.

(** ** The detail table *)

Lemma wrap64_small (z : Z) :
  (-9223372036854775808 <= z < 9223372036854775808)%Z -> wrap64 z = z.
Proof. intros H. unfold wrap64. rewrite Z.mod_small by lia. lia. Qed.

Lemma wrap64_spec (z : Z) :
  (-9223372036854775808 <= wrap64 z < 9223372036854775808)%Z
  /\ exists k, wrap64 z = (z + k * 18446744073709551616)%Z.
Proof.
  unfold wrap64.
  pose proof (Z.mod_pos_bound (z + 9223372036854775808) 18446744073709551616) as Hb.
  pose proof (Z.div_mod (z + 9223372036854775808) 18446744073709551616) as Hd.
  split; [lia|].
  exists (- ((z + 9223372036854775808) / 18446744073709551616))%Z. lia.
Qed.

Lemma num_float_finite (n : Num) :
  num_is_finite n = true -> is_finite (num_float n) = true.
Proof. destruct n as [z|f]; simpl; [intros _; apply of_int64_finite | trivial]. Qed.

Lemma num_float_zero (n : Num) :
  num_is_zero n = true -> is_zero (num_float n) = true.
Proof.
  destruct n as [z|f]; simpl; [|trivial].
  intros H. apply Z.eqb_eq in H. subst z. reflexivity.
Qed.

Lemma num_mul_zero (w q : Num) :
  (num_is_zero w = true /\ num_is_finite q = true)
  \/ (num_is_finite w = true /\ num_is_zero q = true) ->
  is_zero (num_float (num_mul w q)) = true.
Proof.
  intros H.
  assert (Hf : is_zero (num_float w * num_float q)%float = true).
  { destruct H as [[Hz Hf] | [Hf Hz]].
    - apply zero_mul_l; [now apply num_float_zero | now apply num_float_finite].
    - apply zero_mul_r; [now apply num_float_finite | now apply num_float_zero]. }
  destruct w as [x|x], q as [y|y]; try exact Hf.
  cbn [num_mul num_float].
  assert (E : (x * y = 0)%Z).
  { destruct H as [[Hz _] | [_ Hz]]; simpl in Hz; apply Z.eqb_eq in Hz; subst; lia. }
  rewrite E. reflexivity.
Qed.

Lemma of_int64_percent (z : Z) :
  (0 <= z <= 100)%Z -> between 0 100 (of_int64 z).
Proof.
  intros H.
  assert (Hall : forallb (fun n => (0 <=? of_int64 (Z.of_nat n))%float
                                   && (of_int64 (Z.of_nat n) <=? 100)%float)
                         (seq 0 101) = true) by (vm_compute; reflexivity).
  rewrite forallb_forall in Hall. specialize (Hall (Z.to_nat z)).
  rewrite Z2Nat.id in Hall by lia.
  apply andb_prop. apply Hall. apply in_seq. lia.
Qed.

Lemma coerce_num_pcr_between (r : NumRow) :
  between 0 100 (num_float (n_pcr (coerce_num r))).
Proof.
  cbn [coerce_num n_pcr]. destruct (n_pcr r) as [z|f]; cbn [num_fillna num_clip num_float].
  - apply of_int64_percent.
    destruct (Z.leb_spec z 100), (Z.leb_spec 0 z); lia.
  - apply clip_between. now apply fillna_not_nan.
Qed.

(** C1: each row of the edited table gives one row of the detail table, in
    place, over the coerced row.  Its total weight in pounds is the product
    of weight and quantity divided by 453.59237, where the product is taken
    in the type of the two columns: in [int64], wrapping around modulo 2^64,
    when both are integer columns (the exact product when it lies in the
    [int64] range), in [float64] otherwise; the PCR weight in pounds is the
    total times the percentage over 100, the PCR weight in kilograms that
    times 0.45359237, the avoided tonnes that times the benefit over 1000,
    all in [float64], with the two constants as written.  When the weight or
    the quantity is zero and the other one is finite, the total and the two
    PCR weights are zero, and so is the avoided tonnage when the benefit is
    finite. *)
Theorem detail_formulas (pet_pcr_benefit : float) (edited : list NumRow)
        (i : nat) (e : NumRow) :
  nth_error edited i = Some e ->
  exists d,
    nth_error (detail pet_pcr_benefit edited) i = Some d
    /\ d_record d = coerce_num e
    /\ (forall w q,
          n_weight (d_record d) = NInt w -> n_quantity (d_record d) = NInt q ->
          (exists s,
              (-9223372036854775808 <= s < 9223372036854775808)%Z
              /\ (exists k, s = (w * q + k * 18446744073709551616)%Z)
              /\ total_weight_lb d = (of_int64 s / 453.59237)%float)
          /\ ((-9223372036854775808 <= w * q < 9223372036854775808)%Z ->
              total_weight_lb d = (of_int64 (w * q) / 453.59237)%float))
    /\ (forall w,
          n_weight (d_record d) = NFloat w ->
          total_weight_lb d
          = (w * num_float (n_quantity (d_record d)) / 453.59237)%float)
    /\ (forall q,
          n_quantity (d_record d) = NFloat q ->
          total_weight_lb d
          = (num_float (n_weight (d_record d)) * q / 453.59237)%float)
    /\ pcr_weight_lb d
       = (total_weight_lb d * (num_float (n_pcr (d_record d)) / 100))%float
    /\ pcr_weight_kg d = (pcr_weight_lb d * 0.45359237)%float
    /\ avoided_co2_t d = (pcr_weight_kg d * pet_pcr_benefit / 1000)%float
    /\ GRAMS_PER_LB = 453.59237%float
    /\ KG_PER_LB = 0.45359237%float
    /\ ((num_is_zero (n_weight (d_record d)) = true
         /\ num_is_finite (n_quantity (d_record d)) = true)
        \/ (num_is_finite (n_weight (d_record d)) = true
            /\ num_is_zero (n_quantity (d_record d)) = true) ->
        is_zero (total_weight_lb d) = true
        /\ is_zero (pcr_weight_lb d) = true
        /\ is_zero (pcr_weight_kg d) = true
        /\ (is_finite pet_pcr_benefit = true -> is_zero (avoided_co2_t d) = true)).
Proof.
  intros Hi. exists (detail_row pet_pcr_benefit (coerce_num e)).
  split.
  { unfold detail. now rewrite !nth_error_map, Hi. }
  split; [reflexivity|].
  cbn [detail_row d_record total_weight_lb pcr_weight_lb pcr_weight_kg avoided_co2_t].
  set (r := coerce_num e).
  split.
  { intros w q Hw Hq. rewrite Hw, Hq. cbn [num_mul num_float]. split.
    - exists (wrap64 (w * q)). destruct (wrap64_spec (w * q)) as [Hr Hk].
      split; [exact Hr|]. split; [exact Hk | reflexivity].
    - intros Hr. now rewrite wrap64_small. }
  split.
  { intros w Hw. rewrite Hw. destruct (n_quantity r); reflexivity. }
  split.
  { intros q Hq. rewrite Hq. destruct (n_weight r); reflexivity. }
  do 5 (split; [reflexivity|]).
  intros Hz.
  assert (H1 : is_zero (num_float (num_mul (n_weight r) (n_quantity r)) / GRAMS_PER_LB)%float
               = true).
  { apply zero_div; [now apply num_mul_zero | apply regular_GRAMS_PER_LB]. }
  assert (H2 : is_zero (num_float (num_mul (n_weight r) (n_quantity r)) / GRAMS_PER_LB
                        * (num_float (n_pcr r) / 100))%float = true).
  { apply zero_mul_l; [assumption|].
    destruct (coerce_num_pcr_between e). now apply div_100_finite. }
  assert (H3 : is_zero (num_float (num_mul (n_weight r) (n_quantity r)) / GRAMS_PER_LB
                        * (num_float (n_pcr r) / 100) * KG_PER_LB)%float = true).
  { apply zero_mul_l; [assumption | reflexivity]. }
  do 3 (split; [assumption|]).
  intros Hb. apply zero_div; [|apply regular_1000]. now apply zero_mul_l.
Qed.

(** ** Grouping the ledger *)

Lemma insert_sorted_perm (k : string) (l : list string) :
  Permutation (insert_sorted k l) (k :: l).
Proof.
  induction l as [|k' l IH]; simpl.
  - apply Permutation_refl.
  - destruct (String.leb k k').
    + apply Permutation_refl.
    + apply perm_trans with (k' :: k :: l); [now apply perm_skip | apply perm_swap].
Qed.

Lemma sort_keys_perm (l : list string) : Permutation (sort_keys l) l.
Proof.
  induction l as [|k l IH]; simpl.
  - apply perm_nil.
  - apply perm_trans with (k :: sort_keys l);
      [apply insert_sorted_perm | now apply perm_skip].
Qed.

Lemma groupby_sum_keys (l : list PurchaseRecord) :
  map p_part_number (groupby_sum l)
  = sort_keys (nodup string_dec (map p_part_number l)).
Proof.
  unfold groupby_sum. rewrite map_map. cbn [p_part_number]. apply map_id.
Qed.

Lemma groupby_sum_NoDup (l : list PurchaseRecord) :
  NoDup (map p_part_number (groupby_sum l)).
Proof.
  rewrite groupby_sum_keys.
  apply (Permutation_NoDup (l := nodup string_dec (map p_part_number l))).
  - apply Permutation_sym, sort_keys_perm.
  - apply NoDup_nodup.
Qed.

Lemma groupby_sum_In_key (l : list PurchaseRecord) (k : string) :
  In k (map p_part_number (groupby_sum l)) <-> In k (map p_part_number l).
Proof.
  rewrite groupby_sum_keys. split; intros H.
  - apply (Permutation_in _ (sort_keys_perm _)) in H. now apply nodup_In in H.
  - apply (Permutation_in _ (Permutation_sym (sort_keys_perm _))).
    now apply nodup_In.
Qed.

Lemma groupby_sum_quantity (l : list PurchaseRecord) (p : PurchaseRecord) :
  In p (groupby_sum l) ->
  p_quantity p = series_sum (map p_quantity (group_rows (p_part_number p) l)).
Proof.
  unfold groupby_sum. intros H. apply in_map_iff in H.
  destruct H as (k & <- & _). reflexivity.
Qed.

(** ** Sums of a typed column *)

Lemma wrap64_add (a v : Z) : wrap64 (wrap64 a + v) = wrap64 (a + v).
Proof.
  unfold wrap64. f_equal.
  replace ((a + 9223372036854775808) mod 18446744073709551616
           - 9223372036854775808 + v + 9223372036854775808)%Z
    with ((a + 9223372036854775808) mod 18446744073709551616 + v)%Z by lia.
  rewrite Zplus_mod_idemp_l. f_equal. lia.
Qed.

Lemma int_sum_from (l : list Z) (a : Z) :
  fold_left (fun sumx val => wrap64 (sumx + val)) l (wrap64 a)
  = wrap64 (a + Zsum l).
Proof.
  revert a. induction l as [|v l IH]; intros a; simpl.
  - now rewrite Z.add_0_r.
  - rewrite wrap64_add, IH. f_equal. lia.
Qed.

Lemma int_sum_wrap (l : list Z) : Dtype.int_sum l = wrap64 (Zsum l).
Proof. apply (int_sum_from l 0). Qed.

Lemma typed_groupby_sum_keys (keys : list string) (quantity : Dtype.Series) :
  map Dtype.p_part_number (Dtype.groupby_sum keys quantity)
  = sort_keys (nodup string_dec keys).
Proof.
  unfold Dtype.groupby_sum.
  destruct quantity; rewrite map_map; cbn [Dtype.p_part_number]; apply map_id.
Qed.

Lemma sort_keys_nodup_In (keys : list string) (k : string) :
  In k (sort_keys (nodup string_dec keys)) <-> In k keys.
Proof.
  split; intros H.
  - apply (Permutation_in _ (sort_keys_perm _)) in H. now apply nodup_In in H.
  - apply (Permutation_in _ (Permutation_sym (sort_keys_perm _))).
    now apply nodup_In.
Qed.

Lemma sort_keys_nodup_NoDup (keys : list string) :
  NoDup (sort_keys (nodup string_dec keys)).
Proof.
  apply (Permutation_NoDup (l := nodup string_dec keys)).
  - apply Permutation_sym, sort_keys_perm.
  - apply NoDup_nodup.
Qed.

Section TypedLedger.

Variable parse_int : string -> option Z.
Variable parse_float : string -> float.
Variable num_str : float -> string.

Lemma all_int_Some (col : list Dtype.Value) (zs : list Z) :
  Dtype.all_int parse_int col = Some zs ->
  map (Dtype.as_int parse_int) col = map Some zs.
Proof.
  revert zs. induction col as [|v col IH]; intros zs; simpl.
  - now intros [= <-].
  - destruct (Dtype.as_int parse_int v) as [z|]; [|discriminate].
    destruct (Dtype.all_int parse_int col) as [zs'|]; [|discriminate].
    intros [= <-]. simpl. f_equal. now apply IH.
Qed.

(** C3: on a ledger that loads, the part number of a row is the trimmed
    text of its cell and no row is left out.  When every quantity cell reads
    as an integer the column is [int64], and each part number of the result
    carries the sum of the quantities of its rows wrapped around modulo
    2^64, which is the exact sum when that lies in the [int64] range.
    Otherwise the column is [float64]: a cell that holds no number counts as
    0, and each part number carries the compensated sum, in row order, of
    the quantities of its rows.  Each trimmed part number of the ledger
    appears in the result, once.  Two rows for one part number with
    quantities 100 and 250 give a single row with 350, in either type; part
    numbers that differ in blanks at their ends are one part number; 0.1,
    0.2 and 0.3 sum to 0.6; two integer quantities 2^62 sum to -2^63; a
    quantity that is no number leaves its row in its group, as 0. *)
Theorem load_purchase_csv_sums :
  (forall (df : Dtype.DataFrame) (out : list Dtype.PurchaseRecord),
      Dtype.load_purchase_csv parse_int parse_float num_str df = inr out ->
      exists pn qty,
        let found := map strip (Dtype.columns df) in
        let cols :=
          map (rename (dict_set qty "Quantity"
                         (dict_set pn "Vendor Part Number" []))) found in
        let part_numbers :=
          map (fun row =>
                 strip (Dtype.astype_str num_str
                          (Dtype.cell_at "Vendor Part Number" cols row)))
              (Dtype.rows df) in
        let cells := map (Dtype.cell_at "Quantity" cols) (Dtype.rows df) in
        first_present pn_candidates found = Some pn
        /\ first_present qty_candidates found = Some qty
        /\ List.length part_numbers = List.length (Dtype.rows df)
        /\ (forall k, In k (map Dtype.p_part_number out) <-> In k part_numbers)
        /\ NoDup (map Dtype.p_part_number out)
        /\ (forall zs,
              Dtype.all_int parse_int cells = Some zs ->
              map (Dtype.as_int parse_int) cells = map Some zs
              /\ List.length zs = List.length (Dtype.rows df)
              /\ (forall p, In p out ->
                    let g := Dtype.group_values (Dtype.p_part_number p)
                               part_numbers zs in
                    (exists s,
                        (-9223372036854775808 <= s < 9223372036854775808)%Z
                        /\ (exists k, s = (Zsum g + k * 18446744073709551616)%Z)
                        /\ Dtype.p_quantity p = NInt s)
                    /\ ((-9223372036854775808 <= Zsum g < 9223372036854775808)%Z ->
                        Dtype.p_quantity p = NInt (Zsum g))))
        /\ (Dtype.all_int parse_int cells = None ->
            let values :=
              map (fun v =>
                     let q := Dtype.as_float parse_int parse_float v in
                     if is_nan q then 0%float else q) cells in
            List.length values = List.length (Dtype.rows df)
            /\ Forall (fun q => is_nan q = false) values
            /\ (forall p, In p out ->
                  Dtype.p_quantity p
                  = NFloat (Dtype.kahan_sum
                              (Dtype.group_values (Dtype.p_part_number p)
                                 part_numbers values)))))
  /\ (forall part : string,
         Dtype.load_purchase_csv parse_int parse_float num_str
           (Dtype.mkDataFrame ["Vendor Part Number"; "Quantity"]
              [[Dtype.VStr part; Dtype.VInt 100]; [Dtype.VStr part; Dtype.VInt 250]])
         = inr [Dtype.mkPurchase (strip part) (NInt 350)])
  /\ (forall part : string,
         Dtype.load_purchase_csv parse_int parse_float num_str
           (Dtype.mkDataFrame ["Vendor Part Number"; "Quantity"]
              [[Dtype.VStr part; Dtype.VFloat 100];
               [Dtype.VStr part; Dtype.VFloat 250]])
         = inr [Dtype.mkPurchase (strip part) (NFloat 350)])
  /\ Dtype.load_purchase_csv parse_int parse_float num_str
       (Dtype.mkDataFrame ["Part Number"; "Qty"]
          [[Dtype.VStr " A-1"; Dtype.VInt 100]; [Dtype.VStr "B-2"; Dtype.VInt 7];
           [Dtype.VStr "A-1 "; Dtype.VInt 250]])
     = inr [Dtype.mkPurchase "A-1" (NInt 350); Dtype.mkPurchase "B-2" (NInt 7)]
  /\ Dtype.load_purchase_csv parse_int parse_float num_str
       (Dtype.mkDataFrame ["Vendor Part Number"; "Quantity"]
          [[Dtype.VStr "A-1"; Dtype.VFloat 0.1]; [Dtype.VStr "A-1"; Dtype.VFloat 0.2];
           [Dtype.VStr "A-1"; Dtype.VFloat 0.3]])
     = inr [Dtype.mkPurchase "A-1" (NFloat 0.6)]
  /\ Dtype.load_purchase_csv parse_int parse_float num_str
       (Dtype.mkDataFrame ["Vendor Part Number"; "Quantity"]
          [[Dtype.VStr "A-1"; Dtype.VInt 4611686018427387904];
           [Dtype.VStr "A-1"; Dtype.VInt 4611686018427387904]])
     = inr [Dtype.mkPurchase "A-1" (NInt (-9223372036854775808))]
  /\ (forall s : string,
         parse_int s = None -> is_nan (parse_float s) = true ->
         parse_int "250" = Some 250%Z ->
         Dtype.load_purchase_csv parse_int parse_float num_str
           (Dtype.mkDataFrame ["Vendor Part Number"; "Quantity"]
              [[Dtype.VStr "A-1"; Dtype.VStr s]; [Dtype.VStr "A-1"; Dtype.VStr "250"];
               [Dtype.VStr "B-2"; Dtype.VStr s]])
         = inr [Dtype.mkPurchase "A-1" (NFloat 250); Dtype.mkPurchase "B-2" (NFloat 0)]).
Proof.
  split; [|split; [|split; [|split; [|split; [|split]]]]].
  - intros df out. unfold Dtype.load_purchase_csv.
    destruct (first_present pn_candidates (map strip (Dtype.columns df)))
      as [pn|] eqn:Epn; [|discriminate].
    destruct (first_present qty_candidates (map strip (Dtype.columns df)))
      as [qty|] eqn:Eqty; [|discriminate].
    destruct (ambiguous _ _); [discriminate|]. intros [= <-].
    exists pn, qty. cbn zeta.
    split; [reflexivity|]. split; [reflexivity|].
    split; [apply length_map|].
    split; [|split; [|split]].
    + intros k. rewrite typed_groupby_sum_keys. apply sort_keys_nodup_In.
    + rewrite typed_groupby_sum_keys. apply sort_keys_nodup_NoDup.
    + intros zs Hzs. pose proof (all_int_Some _ _ Hzs) as Hmap.
      split; [exact Hmap|]. split.
      { apply (f_equal (@List.length _)) in Hmap.
        rewrite !length_map in Hmap. now rewrite <- Hmap. }
      unfold Dtype.to_numeric.
      match goal with
      | |- context [match Dtype.all_int parse_int ?c with _ => _ end] =>
          change (Dtype.all_int parse_int c = Some zs) in Hzs
      end.
      rewrite Hzs. cbn [Dtype.fillna0 Dtype.groupby_sum].
      intros p Hp. apply in_map_iff in Hp. destruct Hp as (k & <- & _).
      cbn [Dtype.p_part_number Dtype.p_quantity]. rewrite int_sum_wrap. split.
      * match goal with
        | |- context [NInt (wrap64 ?z)] =>
            exists (wrap64 z); destruct (wrap64_spec z) as [Hr Hk]
        end.
        split; [exact Hr|]. split; [exact Hk | reflexivity].
      * intros Hr. now rewrite wrap64_small.
    + intros Hn. split; [now rewrite !length_map|]. split.
      { apply Forall_forall. intros q Hq. apply in_map_iff in Hq.
        destruct Hq as (v & <- & _).
        destruct (is_nan (Dtype.as_float parse_int parse_float v)) eqn:E;
          [reflexivity | exact E]. }
      unfold Dtype.to_numeric.
      match goal with
      | |- context [match Dtype.all_int parse_int ?c with _ => _ end] =>
          change (Dtype.all_int parse_int c = None) in Hn
      end.
      rewrite Hn. cbn [Dtype.fillna0 Dtype.groupby_sum].
      rewrite (map_map (Dtype.as_float parse_int parse_float)
                 (fun f => fillna f 0%float)).
      intros p Hp. apply in_map_iff in Hp. destruct Hp as (k & <- & _).
      reflexivity.
  - intros part.
    transitivity
      (inr (A := Exn)
           (Dtype.groupby_sum [strip part; strip part] (Dtype.IntSeries [100; 250]%Z)));
      [reflexivity|].
    f_equal. unfold Dtype.groupby_sum. cbn [nodup].
    destruct (in_dec string_dec (strip part) [strip part]) as [_ | Hn];
      [|exfalso; apply Hn; now left].
    destruct (in_dec string_dec (strip part) []) as [[] | _].
    cbn [sort_keys fold_right insert_sorted map].
    unfold Dtype.group_values. cbn [combine filter fst snd].
    rewrite String.eqb_refl. reflexivity.
  - intros part.
    transitivity
      (inr (A := Exn)
           (Dtype.groupby_sum [strip part; strip part]
              (Dtype.FloatSeries [100; 250]%float)));
      [reflexivity|].
    f_equal. unfold Dtype.groupby_sum. cbn [nodup].
    destruct (in_dec string_dec (strip part) [strip part]) as [_ | Hn];
      [|exfalso; apply Hn; now left].
    destruct (in_dec string_dec (strip part) []) as [[] | _].
    cbn [sort_keys fold_right insert_sorted map].
    unfold Dtype.group_values. cbn [combine filter fst snd].
    rewrite String.eqb_refl. reflexivity.
  - reflexivity.
  - reflexivity.
  - reflexivity.
  - intros s Hi Hf H250.
    transitivity
      (inr (A := Exn)
           (Dtype.groupby_sum ["A-1"; "A-1"; "B-2"]
              (Dtype.fillna0
                 (Dtype.to_numeric parse_int parse_float
                    [Dtype.VStr s; Dtype.VStr "250"; Dtype.VStr s]))));
      [reflexivity|].
    unfold Dtype.to_numeric.
    cbn [Dtype.all_int Dtype.as_int map Dtype.as_float]. rewrite Hi, H250.
    cbn [Dtype.fillna0 map]. unfold fillna. rewrite Hf. reflexivity.
Qed.

End TypedLedger.

(** ** The purchase merge *)

Lemma group_rows_none (k : string) (l : list PurchaseRecord) :
  ~ In k (map p_part_number l) -> group_rows k l = [].
Proof.
  induction l as [|p l IH]; simpl; intros H.
  - reflexivity.
  - destruct (String.eqb (p_part_number p) k) eqn:E.
    + apply String.eqb_eq in E. tauto.
    + apply IH. tauto.
Qed.

Lemma group_rows_find (k : string) (l : list PurchaseRecord) :
  NoDup (map p_part_number l) ->
  group_rows k l
  = match find (fun p => String.eqb (p_part_number p) k) l with
    | Some p => [p]
    | None => []
    end.
Proof.
  induction l as [|p l IH]; simpl; intros ND.
  - reflexivity.
  - inversion ND as [|? ? Hp ND']; subst.
    destruct (String.eqb (p_part_number p) k) eqn:E.
    + apply String.eqb_eq in E. subst k. now rewrite group_rows_none.
    + now apply IH.
Qed.

Lemma merge_purchases_map (work : list PartRecord) (purchases : list PurchaseRecord) :
  NoDup (map p_part_number purchases) ->
  merge_purchases work purchases = map (merge_row purchases) work.
Proof.
  intros ND. induction work as [|r work IH].
  - reflexivity.
  - transitivity (merge_purchases [r] purchases ++ merge_purchases work purchases).
    + unfold merge_purchases, left_join. cbn [flat_map].
      now rewrite app_nil_r, map_app.
    + rewrite IH. cbn [map]. unfold merge_purchases, left_join. cbn [flat_map].
      rewrite app_nil_r. unfold merge_row, purchase_quantity.
      rewrite (group_rows_find _ _ ND).
      destruct (find _ purchases) as [p|]; reflexivity.
Qed.

Lemma merge_row_part_number (purchases : list PurchaseRecord) (r : PartRecord) :
  part_number (merge_row purchases r) = part_number r.
Proof. reflexivity. Qed.

Lemma merge_row_idempotent (purchases : list PurchaseRecord) (r : PartRecord) :
  merge_row purchases (merge_row purchases r) = merge_row purchases r.
Proof.
  unfold merge_row at 1. rewrite merge_row_part_number.
  unfold merge_row. cbn [quantity set_quantity part_number description weight_g pcr_pct].
  destruct (purchase_quantity (part_number r) purchases) as [q|]; [|reflexivity].
  unfold set_quantity. f_equal. unfold fillna.
  destruct (is_nan q); reflexivity.
Qed.

Lemma merge_row_matched (purchases : list PurchaseRecord) (r : PartRecord) (q : float) :
  purchase_quantity (part_number r) purchases = Some q -> is_nan q = false ->
  quantity (merge_row purchases r) = q.
Proof.
  intros H Hq. unfold merge_row. rewrite H. cbn [quantity set_quantity].
  now apply fillna_number.
Qed.

(** C2: with a ledger that has one row per part number, the merge keeps the
    catalog rows in place and changes nothing but their quantity; a row whose
    part number the ledger holds a quantity for takes that quantity in place
    of its own, neither added to it nor mixed with it (a quantity that is NaN
    is a missing one in pandas: the row then keeps its own); a row whose part
    number is not in the ledger keeps its quantity.  Hence merging the same
    ledger a second time changes nothing, and after a merge with another
    ledger every row that ledger matches carries that ledger's quantity,
    whatever the first merge had put there.  A run of the script merges
    into a fresh copy of the catalog, so the working set after a run with a
    second ledger is the merge of the catalog with that ledger alone. *)
Theorem merge_replaces_quantity (work : list PartRecord)
        (purchases : list PurchaseRecord) :
  NoDup (map p_part_number purchases) ->
  let merged := merge_purchases work purchases in
  List.length merged = List.length work
  /\ (forall i r,
        nth_error work i = Some r ->
        exists r',
          nth_error merged i = Some r'
          /\ part_number r' = part_number r
          /\ description r' = description r
          /\ weight_g r' = weight_g r
          /\ pcr_pct r' = pcr_pct r
          /\ (forall q, purchase_quantity (part_number r) purchases = Some q ->
                        is_nan q = false -> quantity r' = q)
          /\ (forall q, purchase_quantity (part_number r) purchases = Some q ->
                        is_nan q = true -> quantity r' = quantity r)
          /\ (purchase_quantity (part_number r) purchases = None ->
              quantity r' = quantity r))
  /\ merge_purchases merged purchases = merged
  /\ (forall first,
        NoDup (map p_part_number first) ->
        forall i r q,
          nth_error (merge_purchases (merge_purchases work first) purchases) i
          = Some r ->
          purchase_quantity (part_number r) purchases = Some q ->
          is_nan q = false ->
          quantity r = q
          /\ nth_error merged i = Some r)
  /\ (forall s first,
        s_db s = work ->
        s_work (rerun (rerun s (Some first)) (Some purchases)) = merged).
Proof.
  intros ND merged. unfold merged. rewrite !merge_purchases_map by assumption.
  split; [apply length_map|]. split; [|split; [|split]].
  - intros i r Hi. exists (merge_row purchases r).
    split; [now rewrite nth_error_map, Hi|].
    do 4 (split; [reflexivity|]).
    unfold merge_row. cbn [quantity set_quantity]. repeat split.
    + intros q -> Hq. now apply fillna_number.
    + intros q -> Hq. now apply fillna_nan.
    + now intros ->.
  - rewrite map_map. apply map_ext. intros r. apply merge_row_idempotent.
  - intros first ND1 i r q Hi Hq Hn.
    rewrite !merge_purchases_map in Hi by assumption.
    rewrite !nth_error_map in Hi. rewrite nth_error_map.
    destruct (nth_error work i) as [r0|]; [|discriminate].
    simpl in Hi. injection Hi as <-.
    rewrite !merge_row_part_number in Hq.
    split.
    + apply merge_row_matched; [now rewrite !merge_row_part_number | assumption].
    + simpl. f_equal. unfold merge_row at 1 2.
      rewrite merge_row_part_number, Hq, !fillna_number by assumption.
      reflexivity.
  - intros s first <-. cbn [rerun s_db s_work].
    now apply merge_purchases_map.
Qed.

Lemma rows_of_merge (pn : string) (purchases : list PurchaseRecord)
      (work : list PartRecord) :
  rows_of pn (map (merge_row purchases) work)
  = map (merge_row purchases) (rows_of pn work).
Proof.
  unfold rows_of. induction work as [|r work IH]; simpl.
  - reflexivity.
  - destruct (String.eqb (part_number r) pn); simpl; now rewrite IH.
Qed.

Lemma map_constant {A B} (g : A -> B) (c : B) (l : list A) :
  (forall x, In x l -> g x = c) -> map g l = repeat c (List.length l).
Proof.
  induction l as [|x l IH]; simpl; intros H.
  - reflexivity.
  - rewrite (H x) by now left. f_equal. apply IH. intros y Hy. apply H. now right.
Qed.

(** C9: with a ledger that has one row per part number and holds the
    quantity [q] (a number) for the part number [pn], each of the [k] catalog
    rows with that part number carries [q] after the merge: the merged
    quantities of the part are [k] copies of [q], and their sum is the sum
    of [k] copies of [q], not [q]. *)
Theorem merge_duplicate_catalog_rows (work : list PartRecord)
        (purchases : list PurchaseRecord) (pn : string) (q : float) :
  NoDup (map p_part_number purchases) ->
  purchase_quantity pn purchases = Some q ->
  is_nan q = false ->
  let k := List.length (rows_of pn work) in
  let merged := rows_of pn (merge_purchases work purchases) in
  List.length merged = k
  /\ (forall r, In r merged -> quantity r = q)
  /\ map quantity merged = repeat q k
  /\ series_sum (map quantity merged) = series_sum (repeat q k).
Proof.
  intros ND Hq Hn k merged. unfold merged, k.
  rewrite merge_purchases_map by assumption. rewrite rows_of_merge.
  assert (Hall : forall r, In r (rows_of pn work) ->
                           quantity (merge_row purchases r) = q).
  { intros r Hr. unfold rows_of in Hr. apply filter_In in Hr.
    destruct Hr as [_ E]. apply String.eqb_eq in E.
    apply merge_row_matched; [now rewrite E | assumption]. }
  assert (Hmap : map quantity (map (merge_row purchases) (rows_of pn work))
                 = repeat q (List.length (rows_of pn work))).
  { rewrite map_map. now apply map_constant. }
  split; [apply length_map|]. split; [|split].
  - intros r Hr. apply in_map_iff in Hr. destruct Hr as (r0 & <- & Hr0).
    now apply Hall.
  - exact Hmap.
  - now rewrite Hmap.
Qed.

(** * The claims at sample inputs *)

(** C1 at a row with weight 50, PCR 40 % and quantity 1000, all integers:
    the total is 50000 / 453.59237 pounds. *)
Lemma detail_formulas_witness :
  exists d,
    nth_error (detail 1.70 [edited_plain]) 0 = Some d
    /\ total_weight_lb d = (50000 / 453.59237)%float
    /\ pcr_weight_lb d = (total_weight_lb d * (40 / 100))%float.
Proof.
  destruct (detail_formulas 1.70 [edited_plain] 0 edited_plain eq_refl)
    as (d & Hd & Hr & Hint & _ & _ & Hp & _).
  exists d. split; [exact Hd|]. split.
  - destruct (Hint 50%Z 1000%Z) as [_ H]; [now rewrite Hr | now rewrite Hr |].
    apply H. lia.
  - rewrite Hp, Hr. reflexivity.
Defined.

(** C1 as stated fails in three ways.  With integer columns, weight 50 and
    quantity 10^18, the product wraps around and the total weight is
    negative, where the product of the claim is positive.  With weight 0 and
    an infinite quantity the four metrics are NaN, not 0.  With weight 0,
    quantity 7 and an infinite benefit the avoided tonnage is NaN, though
    the three weights are 0. *)
Lemma detail_claim_fails :
  (map total_weight_lb
       (detail 1.70 [mkNumRow "A-1" "cap" (NInt 50) (NInt 40)
                              (NInt 1000000000000000000)])
   = [(of_int64 (-5340232221128654848) / 453.59237)%float]
   /\ (of_int64 (-5340232221128654848) / 453.59237 <? 0)%float = true
   /\ (0 <? 50 * 1000000000000000000 / 453.59237)%float = true)
  /\ (map (fun d => (is_nan (total_weight_lb d), is_nan (pcr_weight_lb d),
                     is_nan (pcr_weight_kg d), is_nan (avoided_co2_t d)))
          (detail 1.70 [mkNumRow "A-1" "cap" (NFloat 0) (NFloat 40)
                                 (NFloat infinity)])
      = [(true, true, true, true)])
  /\ (map (fun d => (is_zero (total_weight_lb d), is_zero (pcr_weight_lb d),
                     is_zero (pcr_weight_kg d), is_nan (avoided_co2_t d)))
          (detail infinity [mkNumRow "A-1" "cap" (NInt 0) (NInt 40) (NInt 7)])
      = [(true, true, true, true)]).
Proof. repeat split. Qed.

(** C2 at the sample catalog and ledger: a second merge of the same ledger
    changes nothing. *)
Lemma merge_replaces_quantity_witness :
  merge_purchases (merge_purchases sample_parts sample_purchases) sample_purchases
  = merge_purchases sample_parts sample_purchases.
Proof.
  apply (merge_replaces_quantity sample_parts sample_purchases).
  replace (map p_part_number sample_purchases)
    with (nodup string_dec (map p_part_number sample_purchases)) by reflexivity.
  apply NoDup_nodup.
Defined.

(** C2 as stated fails for a purchase quantity that is NaN: a ledger with
    the quantities infinity and -infinity for one part number loads to that
    part number with the quantity NaN, and a catalog row it matches keeps
    its own quantity (0 as loaded, or 5) instead of taking NaN. *)
Lemma merge_keeps_quantity_for_nan_purchase :
  Dtype.load_purchase_csv sample_parse_int sample_parse sample_str
    (Dtype.mkDataFrame ["Vendor Part Number"; "Quantity"]
       [[Dtype.VStr "R-9"; Dtype.VFloat infinity];
        [Dtype.VStr "R-9"; Dtype.VFloat neg_infinity]])
  = inr [Dtype.mkPurchase "R-9" (NFloat nan)]
  /\ load_purchase_csv sample_parse sample_str
       (mkDataFrame ["Vendor Part Number"; "Quantity"]
          [[CStr "R-9"; CNum infinity]; [CStr "R-9"; CNum neg_infinity]])
     = inr [mkPurchase "R-9" nan]
  /\ purchase_quantity "R-9" [mkPurchase "R-9" nan] = Some nan
  /\ merge_purchases [mkPart "R-9" "cap" 50 40 0] [mkPurchase "R-9" nan]
     = [mkPart "R-9" "cap" 50 40 0]
  /\ merge_purchases [mkPart "R-9" "cap" 50 40 5] [mkPurchase "R-9" nan]
     = [mkPart "R-9" "cap" 50 40 5]
  /\ is_nan 5 = false.
Proof. repeat split. Qed.

(** C3 at a ledger whose rows for the part A-1 carry blanks before and
    after the part number: one row for A-1, with 350, and no part number
    twice. *)
Lemma load_purchase_csv_sums_witness :
  Dtype.load_purchase_csv sample_parse_int sample_parse sample_str
    ledger_padded
  = inr [Dtype.mkPurchase "A-1" (NInt 350); Dtype.mkPurchase "B-2" (NInt 7)]
  /\ NoDup ["A-1"; "B-2"].
Proof.
  split; [reflexivity|].
  destruct (proj1 (load_purchase_csv_sums sample_parse_int sample_parse sample_str)
              ledger_padded
              [Dtype.mkPurchase "A-1" (NInt 350); Dtype.mkPurchase "B-2" (NInt 7)])
    as (pn & qty & _ & _ & _ & _ & H & _).
  - reflexivity.
  - exact H.
Defined.

(** C3 as stated fails on a ledger with two rows for one part number, each
    with the integer quantity 2^62: the column is [int64], the sum wraps
    around and the result carries -2^63, where the sum of the two quantities
    is 2^63. *)
Lemma load_purchase_csv_sum_wraps :
  Dtype.load_purchase_csv sample_parse_int sample_parse sample_str
    (Dtype.mkDataFrame ["Vendor Part Number"; "Quantity"]
       [[Dtype.VStr "A-1"; Dtype.VInt 4611686018427387904];
        [Dtype.VStr "A-1"; Dtype.VInt 4611686018427387904]])
  = inr [Dtype.mkPurchase "A-1" (NInt (-9223372036854775808))]
  /\ (4611686018427387904 + 4611686018427387904 = 9223372036854775808)%Z.
Proof. split; reflexivity. Qed.

(** C4 at the sample catalog: the PCR percentage read as 140 is in range
    after the load. *)
Lemma pcr_percent_in_range_witness :
  load_xlsx sample_parse sample_str sample_catalog = inr sample_parts
  /\ between 0 100 (pcr_pct (mkPart "A-1" "cap" 50 100 0)).
Proof.
  split; [reflexivity|].
  apply (proj1 (pcr_percent_in_range sample_parse sample_str)
           sample_catalog sample_parts).
  - reflexivity.
  - simpl. tauto.
Defined.

(** C6 at a row with quantity -3 and weight -5: both are kept. *)
Lemma coerce_row_values_witness :
  quantity (coerce_row sample_parse edited_negative) = (-3)%float
  /\ weight_g (coerce_row sample_parse edited_negative) = (-5)%float.
Proof.
  destruct (coerce_row_values sample_parse edited_negative)
    as (_ & _ & Hq & _ & _ & Hw & _).
  split; [apply Hq | apply Hw]; reflexivity.
Defined.

(** C6 as stated fails on that row: its negative quantity and its negative
    weight are still negative after the coercion, not 0. *)
Lemma coerce_row_keeps_negative :
  (to_numeric sample_parse (e_quantity edited_negative) <? 0)%float = true
  /\ (to_numeric sample_parse (e_weight edited_negative) <? 0)%float = true
  /\ quantity (coerce_row sample_parse edited_negative) = (-3)%float
  /\ is_zero (quantity (coerce_row sample_parse edited_negative)) = false
  /\ weight_g (coerce_row sample_parse edited_negative) = (-5)%float
  /\ is_zero (weight_g (coerce_row sample_parse edited_negative)) = false.
Proof. repeat split. Qed.

(** C5 fails on a catalog row whose part number cell is empty: line 64 has
    turned the missing value into the text "nan" before line 70 looks for
    missing values, so the row is kept, under the part number "nan", where
    the claim has it excluded. *)
Lemma load_xlsx_keeps_missing_part_number :
  load_xlsx sample_parse sample_str catalog_missing_part_number
  = inr [mkPart "nan" "Cap" 10 50 0].
Proof. reflexivity. Qed.

(** C7 at a catalog without a weight column. *)
Lemma normalize_cols_schema_error_witness :
  exists missing,
    normalize_cols catalog_without_weight
    = inl (MissingColumns missing ["Part Number"; "Description"; "PCR %"])
    /\ In "Weight (g)" missing.
Proof.
  apply (proj2 (proj2 (normalize_cols_schema_error catalog_without_weight))).
  eexists. split.
  - simpl. right. right. left. reflexivity.
  - intros opt Hopt Hin. simpl in Hopt, Hin.
    repeat (destruct Hopt as [<- | Hopt];
            [repeat (destruct Hin as [Hin | Hin]; [discriminate Hin|]); exact Hin|]).
    exact Hopt.
Defined.

(** C8 at the sample catalog, whose weight column is headed [Weight], the
    last alias of the field. *)
Lemma normalize_cols_first_alias_witness :
  exists before a after,
    ["Weight (g)"; "Gram Weight"; "Gram Weight (g)"; "Grams"; "Weight Grams";
     "Weight_g"; "Weight"] = before ++ a :: after
    /\ dict_get "Weight (g)"
         (resolve col_map_candidates (map strip (columns sample_catalog)))
       = Some a.
Proof.
  destruct (normalize_cols_first_alias sample_catalog "Weight (g)"
              ["Weight (g)"; "Gram Weight"; "Gram Weight (g)"; "Grams";
               "Weight Grams"; "Weight_g"; "Weight"])
    as (before & a & after & H1 & _ & _ & H2 & _).
  - simpl. right. right. left. reflexivity.
  - exists "Weight". split; simpl; tauto.
  - exists before, a, after. split; assumption.
Defined.

(** C9 at the sample catalog, where the part A-1 has two rows, and the
    sample ledger, which holds 350 for it: both rows carry 350 and the
    quantities of the part sum to 700. *)
Lemma merge_duplicate_catalog_rows_witness :
  map quantity (rows_of "A-1" (merge_purchases sample_parts sample_purchases))
  = [350%float; 350%float]
  /\ series_sum
       (map quantity (rows_of "A-1" (merge_purchases sample_parts sample_purchases)))
     = 700%float.
Proof.
  destruct (merge_duplicate_catalog_rows sample_parts sample_purchases "A-1" 350)
    as (_ & _ & H1 & H2).
  - replace (map p_part_number sample_purchases)
      with (nodup string_dec (map p_part_number sample_purchases)) by reflexivity.
    apply NoDup_nodup.
  - reflexivity.
  - reflexivity.
  - split; [exact H1 | exact H2].
Defined.

(** C10 at a catalog headed [weight (g)] and at a ledger headed [QTY]. *)
Lemma header_match_is_case_sensitive_witness :
  (exists missing,
      load_xlsx sample_parse sample_str catalog_lowercase_weight
      = inl (MissingColumns missing
               ["Part Number"; "Description"; "weight (g)"; "PCR %"])
      /\ In "Weight (g)" missing)
  /\ load_purchase_csv sample_parse sample_str ledger_uppercase_qty
     = inl (PurchaseColumns ["Part Number"; "QTY"] pn_candidates qty_candidates).
Proof.
  split.
  - apply (proj1 (header_match_is_case_sensitive sample_parse sample_str
                    catalog_lowercase_weight)
             "Weight (g)"
             ["Weight (g)"; "Gram Weight"; "Gram Weight (g)"; "Grams";
              "Weight Grams"; "Weight_g"; "Weight"]
             "Weight (g)" "weight (g)").
    + simpl. right. right. left. reflexivity.
    + simpl. left. reflexivity.
    + reflexivity.
    + discriminate.
    + intros opt Hopt Hin. simpl in Hopt, Hin.
      repeat (destruct Hopt as [<- | Hopt];
              [repeat (destruct Hin as [Hin | Hin]; [discriminate Hin|]); exact Hin|]).
      exact Hopt.
  - apply (proj2 (header_match_is_case_sensitive sample_parse sample_str
                    ledger_uppercase_qty)
             qty_candidates "Qty" "QTY").
    + right. reflexivity.
    + simpl. right. left. reflexivity.
    + reflexivity.
    + discriminate.
    + intros opt Hopt Hin. simpl in Hopt, Hin.
      repeat (destruct Hopt as [<- | Hopt];
              [repeat (destruct Hin as [Hin | Hin]; [discriminate Hin|]); exact Hin|]).
      exact Hopt.
Defined.

(** * Further properties of the pipeline *)

(** ** Sorted keys *)

Lemma insert_sorted_HdRel (a k : string) (l : list string) :
  str_le a k -> HdRel str_le a l -> HdRel str_le a (insert_sorted k l).
Proof.
  intros Hak Hl. destruct l as [|k' l]; simpl.
  - now constructor.
  - destruct (String.leb k k'); constructor; trivial.
    now inversion Hl.
Qed.

Lemma insert_sorted_Sorted (k : string) (l : list string) :
  Sorted str_le l -> Sorted str_le (insert_sorted k l).
Proof.
  induction l as [|k' l IH]; simpl; intros Hs.
  - repeat constructor.
  - inversion Hs as [|? ? Hs' Hhd]; subst.
    destruct (String.leb k k') eqn:E.
    + constructor; [assumption | now constructor].
    + constructor; [now apply IH|].
      apply insert_sorted_HdRel; [|assumption].
      destruct (String.leb_total k k') as [H | H]; [congruence | exact H].
Qed.

Lemma sort_keys_Sorted (l : list string) : Sorted str_le (sort_keys l).
Proof.
  induction l as [|k l IH]; simpl.
  - constructor.
  - now apply insert_sorted_Sorted.
Qed.

Lemma Sorted_strict (l : list string) :
  Sorted str_le l -> NoDup l -> Sorted str_lt l.
Proof.
  induction 1 as [|a l Hs IH Hhd]; intros ND.
  - constructor.
  - inversion ND as [|? ? Ha ND']; subst. constructor; [now apply IH|].
    destruct Hhd as [|b l Hab]; constructor.
    split; [exact Hab|]. intros ->. apply Ha. now left.
Qed.

Lemma sort_keys_nodup_strict (l : list string) :
  Sorted str_lt (sort_keys (nodup string_dec l)) /\
  NoDup (sort_keys (nodup string_dec l)) /\
  (forall k, In k (sort_keys (nodup string_dec l)) <-> In k l).
Proof.
  assert (ND : NoDup (sort_keys (nodup string_dec l))).
  { apply (Permutation_NoDup (l := nodup string_dec l)).
    - apply Permutation_sym, sort_keys_perm.
    - apply NoDup_nodup. }
  split; [|split].
  - apply Sorted_strict; [apply sort_keys_Sorted | exact ND].
  - exact ND.
  - intros k. split; intros H.
    + apply (Permutation_in _ (sort_keys_perm _)) in H. now apply nodup_In in H.
    + apply (Permutation_in _ (Permutation_sym (sort_keys_perm _))).
      now apply nodup_In.
Qed.

(** X1: the list of unmatched part numbers holds exactly the part numbers of
    the ledger that no catalog row carries, each once, in strictly ascending
    order; [csv_unmatched] is [None] exactly when every part number of the
    ledger is in the catalog. *)
Theorem unmatched_part_numbers (db : list PartRecord)
        (purchases : list PurchaseRecord) :
  (forall pn, In pn (unmatched db purchases) <->
              In pn (map p_part_number purchases)
              /\ ~ In pn (map part_number db))
  /\ NoDup (unmatched db purchases)
  /\ Sorted str_lt (unmatched db purchases)
  /\ (csv_unmatched db purchases = None <->
      forall p, In p purchases -> In (p_part_number p) (map part_number db)).
Proof.
  unfold csv_unmatched, unmatched.
  destruct (sort_keys_nodup_strict
              (filter (fun pn => negb (mem pn (map part_number db)))
                 (map p_part_number purchases))) as (Hs & Hn & Hi).
  assert (Hm : forall pn,
             In pn (sort_keys (nodup string_dec
                      (filter (fun pn => negb (mem pn (map part_number db)))
                         (map p_part_number purchases))))
             <-> In pn (map p_part_number purchases)
                 /\ ~ In pn (map part_number db)).
  { intros pn. rewrite Hi, filter_In, negb_true_iff, mem_false. tauto. }
  split; [exact Hm|]. split; [exact Hn|]. split; [exact Hs|].
  destruct (sort_keys _) as [|k l] eqn:E.
  - split; [|reflexivity]. intros _ p Hp.
    destruct (in_dec string_dec (p_part_number p) (map part_number db))
      as [H | H]; [exact H|].
    exfalso. apply (proj2 (Hm (p_part_number p))).
    split; [now apply in_map | exact H].
  - split; [discriminate|]. intros H. exfalso.
    destruct (proj1 (Hm k)) as [Hk Hnk]; [now left|].
    apply in_map_iff in Hk. destruct Hk as (p & <- & Hp). now apply Hnk, H.
Qed.

(** X2: the rows [load_purchase_csv] returns are in strictly ascending order
    of part number. *)
Theorem load_purchase_csv_sorted (parse_float : string -> float)
        (num_str : float -> string) (df : DataFrame)
        (out : list PurchaseRecord) :
  load_purchase_csv parse_float num_str df = inr out ->
  Sorted str_lt (map p_part_number out).
Proof.
  unfold load_purchase_csv.
  destruct (first_present pn_candidates _); [|discriminate].
  destruct (first_present qty_candidates _); [|discriminate].
  destruct (ambiguous _ _); [discriminate|]. intros [= <-].
  rewrite groupby_sum_keys. apply sort_keys_nodup_strict.
Qed.

(** ** What the left join keeps *)

Lemma set_quantity_same (r : PartRecord) : set_quantity r (quantity r) = r.
Proof. now destruct r. Qed.

Lemma group_rows_filter (k : string) (f : PurchaseRecord -> bool)
      (l : list PurchaseRecord) :
  (forall p, p_part_number p = k -> f p = true) ->
  group_rows k (filter f l) = group_rows k l.
Proof.
  intros Hf. unfold group_rows. induction l as [|p l IH]; simpl.
  - reflexivity.
  - destruct (String.eqb (p_part_number p) k) eqn:E.
    + apply String.eqb_eq in E. rewrite (Hf p E). simpl.
      apply String.eqb_eq in E. now rewrite E, IH.
    + destruct (f p); simpl; [rewrite E|]; apply IH.
Qed.

Lemma left_join_ext (work : list PartRecord) (p1 p2 : list PurchaseRecord) :
  (forall r, In r work ->
             group_rows (part_number r) p1 = group_rows (part_number r) p2) ->
  left_join work p1 = left_join work p2.
Proof.
  unfold left_join. induction work as [|r work IH]; simpl; intros H.
  - reflexivity.
  - rewrite (H r) by now left. f_equal. apply IH. intros r' Hr'. apply H. now right.
Qed.

(** X3: ledger rows whose part number is not in the catalog are ignored by
    the merge: removing them from the ledger leaves the merged table the
    same. *)
Theorem merge_ignores_unmatched (work : list PartRecord)
        (purchases : list PurchaseRecord) :
  merge_purchases work purchases
  = merge_purchases work
      (filter (fun p => mem (p_part_number p) (map part_number work)) purchases).
Proof.
  unfold merge_purchases. f_equal. apply left_join_ext. intros r Hr.
  symmetry. apply group_rows_filter. intros p Hp.
  apply mem_In. rewrite Hp. now apply in_map.
Qed.

(** X4: a ledger none of whose part numbers is in the catalog, the empty
    ledger included, leaves the working table exactly as it was. *)
Theorem merge_without_match (work : list PartRecord)
        (purchases : list PurchaseRecord) :
  (forall p, In p purchases -> ~ In (p_part_number p) (map part_number work)) ->
  merge_purchases work purchases = work.
Proof.
  intros H. unfold merge_purchases, left_join.
  induction work as [|r work IH]; [reflexivity|].
  cbn [flat_map]. rewrite map_app.
  rewrite group_rows_none.
  - cbn [map app]. rewrite fillna_nan by reflexivity.
    rewrite set_quantity_same. f_equal. apply IH.
    intros p Hp Hin. apply (H p Hp). now right.
  - intros Hin. apply in_map_iff in Hin. destruct Hin as (p & Hp & Hin).
    apply (H p Hin). rewrite Hp. now left.
Qed.

(** X5: the left join never drops a catalog row, whatever the ledger (a
    part number may even occur in it several times): every row of the
    working table is found in the merged table, changed in its quantity at
    most, and the merged table has at least as many rows. *)
Theorem merge_keeps_catalog_rows (work : list PartRecord)
        (purchases : list PurchaseRecord) :
  (List.length work <= List.length (merge_purchases work purchases))%nat
  /\ (forall r, In r work ->
        exists r', In r' (merge_purchases work purchases)
                   /\ part_number r' = part_number r
                   /\ description r' = description r
                   /\ weight_g r' = weight_g r
                   /\ pcr_pct r' = pcr_pct r).
Proof.
  unfold merge_purchases, left_join. split.
  - rewrite length_map. induction work as [|r work IH]; [apply le_n|].
    cbn [flat_map]. rewrite length_app. cbn [List.length].
    destruct (group_rows (part_number r) purchases) as [|p ms].
    + cbn [List.length]. lia.
    + rewrite length_map. cbn [List.length]. lia.
  - intros r Hr.
    destruct (group_rows (part_number r) purchases) as [|p ms] eqn:E.
    + exists (set_quantity r (fillna nan (quantity r))). split; [|now repeat split].
      apply in_map_iff. exists (r, nan). split; [reflexivity|].
      apply in_flat_map. exists r. split; [assumption|]. rewrite E. now left.
    + exists (set_quantity r (fillna (p_quantity p) (quantity r))).
      split; [|now repeat split].
      apply in_map_iff. exists (r, p_quantity p). split; [reflexivity|].
      apply in_flat_map. exists r. split; [assumption|]. rewrite E. now left.
Qed.

(** X6: the two stages compose: for every ledger that loads, whatever the
    catalog, the merge with the loaded ledger has exactly one row per catalog
    row, in the catalog's order, each the catalog row with the quantity the
    ledger holds for its part number. *)
Theorem load_then_merge (parse_float : string -> float)
        (num_str : float -> string) (df : DataFrame)
        (out : list PurchaseRecord) (work : list PartRecord) :
  load_purchase_csv parse_float num_str df = inr out ->
  List.length (merge_purchases work out) = List.length work
  /\ merge_purchases work out = map (merge_row out) work
  /\ map part_number (merge_purchases work out) = map part_number work.
Proof.
  intros Hl.
  assert (ND : NoDup (map p_part_number out)).
  { revert Hl. unfold load_purchase_csv.
    destruct (first_present pn_candidates _); [|discriminate].
    destruct (first_present qty_candidates _); [|discriminate].
    destruct (ambiguous _ _); [discriminate|]. intros [= <-].
    apply groupby_sum_NoDup. }
  rewrite merge_purchases_map by assumption.
  split; [apply length_map|]. split; [reflexivity|].
  rewrite map_map. apply map_ext. intros r. apply merge_row_part_number.
Qed.

(** ** The catalog load, row by row *)

Lemma filter_map_comm {A B} (f : A -> B) (P : B -> bool) (l : list A) :
  filter P (map f l) = map f (filter (fun x => P (f x)) l).
Proof.
  induction l as [|x l IH]; simpl.
  - reflexivity.
  - destruct (P (f x)); simpl; now rewrite IH.
Qed.

Lemma normalize_cols_rows (df df' : DataFrame) :
  normalize_cols df = inr df' ->
  rows df' = rows df
  /\ columns df'
     = map (rename (rename_dict
                      (resolve col_map_candidates (map strip (columns df)))))
           (map strip (columns df))
  /\ unresolved_fields col_map_candidates (map strip (columns df)) = [].
Proof.
  rewrite normalize_cols_cases.
  destruct (unresolved_fields _ _); [|discriminate].
  intros [= <-]. now repeat split.
Qed.

Section Catalog.

Variable parse_float : string -> float.
Variable num_str : float -> string.

(** X7: a catalog that loads gives one record for each row whose weight and
    PCR percentage both read as numbers, and for no other row, in the order
    of the rows; the part number of a row plays no part in whether it is
    kept.  Every record has quantity 0 and a weight that is a number. *)
Theorem load_xlsx_survivors (df : DataFrame) (parts : list PartRecord) :
  load_xlsx parse_float num_str df = inr parts ->
  exists df',
    normalize_cols df = inr df'
    /\ let cols := columns df' in
       let numeric row :=
         negb (is_nan (to_numeric parse_float (cell_at "Weight (g)" cols row)))
         && negb (is_nan (to_numeric parse_float (cell_at "PCR %" cols row))) in
       let kept := filter numeric (rows df) in
       map part_number parts
       = map (fun row => strip (astype_str num_str
                                  (cell_at "Vendor Part Number" cols row))) kept
       /\ map weight_g parts
          = map (fun row => to_numeric parse_float (cell_at "Weight (g)" cols row))
                kept
       /\ map pcr_pct parts
          = map (fun row => clip 0 100 (to_numeric parse_float
                                          (cell_at "PCR %" cols row))) kept
       /\ (forall r, In r parts ->
             quantity r = 0%float /\ is_nan (weight_g r) = false)
       /\ (List.length parts <= List.length (rows df))%nat.
Proof.
  intros Hl. destruct (load_xlsx_rows parse_float num_str df parts Hl)
    as (df' & Hn & ->).
  exists df'. split; [exact Hn|].
  destruct (normalize_cols_rows df df' Hn) as (Hr & _ & _). rewrite Hr.
  cbn zeta. rewrite filter_map_comm, !map_map.
  assert (Hf : filter (fun x => notna_part (read_part parse_float num_str (columns df') x))
                      (rows df)
               = filter (fun row =>
                   negb (is_nan (to_numeric parse_float
                                   (cell_at "Weight (g)" (columns df') row)))
                   && negb (is_nan (to_numeric parse_float
                                      (cell_at "PCR %" (columns df') row))))
                   (rows df)).
  { apply filter_ext. intros row. unfold notna_part, read_part, isna_str.
    cbn [part_number weight_g pcr_pct]. now rewrite orb_false_l, negb_orb. }
  rewrite Hf. do 3 (split; [reflexivity|]). split.
  - intros r Hr'. apply in_map_iff in Hr'. destruct Hr' as (row & <- & Hrow).
    split; [reflexivity|].
    apply filter_In in Hrow. destruct Hrow as [_ Hrow].
    apply andb_prop in Hrow. destruct Hrow as [Hw _].
    cbn [weight_g set_quantity set_pcr read_part].
    now apply negb_true_iff in Hw.
  - rewrite length_map. apply filter_length_le.
Qed.

End Catalog.

(** ** Trimming twice *)

Lemma lstrip_idempotent (s : string) : lstrip (lstrip s) = lstrip s.
Proof.
  induction s as [|c s IH]; simpl.
  - reflexivity.
  - destruct (is_space c) eqn:E; [exact IH|]. simpl. now rewrite E.
Qed.

Lemma rstrip_idempotent (s : string) : rstrip (rstrip s) = rstrip s.
Proof.
  induction s as [|c s IH]; simpl.
  - reflexivity.
  - destruct (rstrip s) as [|c' r] eqn:E.
    + destruct (is_space c) eqn:Ec; simpl; [reflexivity | now rewrite Ec].
    + change (rstrip (String c (String c' r))) with
        (match rstrip (String c' r) with
         | EmptyString => if is_space c then EmptyString else String c EmptyString
         | r0 => String c r0
         end).
      now rewrite IH.
Qed.

Lemma rstrip_fixed_lstrip (s : string) :
  rstrip s = s -> rstrip (lstrip s) = lstrip s.
Proof.
  induction s as [|c s IH]; intros H.
  - reflexivity.
  - cbn [lstrip]. destruct (is_space c) eqn:E; [|exact H].
    apply IH. cbn [rstrip] in H. rewrite E in H.
    destruct (rstrip s) as [|c' r] eqn:Er.
    + discriminate.
    + now inversion H.
Qed.

Lemma strip_idempotent (s : string) : strip (strip s) = strip s.
Proof.
  unfold strip.
  rewrite (rstrip_fixed_lstrip (rstrip s) (rstrip_idempotent s)).
  apply lstrip_idempotent.
Qed.

(** ** What [normalize_cols] does to a table *)

Lemma rename_dict_Some (l acc : dict string) (a k : string) :
  dict_get a (fold_left (fun d '(k, opt) => dict_set opt k d) l acc) = Some k ->
  In (k, a) l \/ dict_get a acc = Some k.
Proof.
  revert acc. induction l as [|[k0 a0] l IH]; simpl; intros acc H.
  - now right.
  - destruct (IH _ H) as [Hin | Hacc]; [left; now right|].
    rewrite dict_get_set in Hacc.
    destruct (String.eqb a a0) eqn:E.
    + apply String.eqb_eq in E. subst a0. injection Hacc as ->. left. now left.
    + now right.
Qed.

Lemma rename_cases (resolved : dict string) (c : string) :
  rename (rename_dict resolved) c = c
  \/ In (rename (rename_dict resolved) c, c) resolved.
Proof.
  unfold rename, rename_dict.
  destruct (dict_get c _) as [k|] eqn:E; [|now left].
  right. destruct (rename_dict_Some _ _ _ _ E) as [H | H]; [exact H | discriminate].
Qed.

Lemma rename_other (columns : list string) (c : string) :
  ~ In c (flat_map snd col_map_candidates) ->
  rename (rename_dict (resolve col_map_candidates columns)) c = c.
Proof.
  intros H. destruct (rename_cases (resolve col_map_candidates columns) c)
    as [E | Hin]; [exact E|].
  exfalso. apply H. apply (binding_values columns).
  rewrite <- resolve_bindings by apply candidates_keys_NoDup.
  change c with (snd (rename (rename_dict (resolve col_map_candidates columns)) c, c)).
  now apply in_map.
Qed.

Lemma candidates_heads (target : string) (options : list string) :
  In (target, options) col_map_candidates ->
  exists others, options = target :: others.
Proof.
  simpl. intros [H | [H | [H | [H | []]]]]; inversion H; eexists; reflexivity.
Qed.

Lemma candidates_stripped (target : string) :
  In target (dict_keys col_map_candidates) -> strip target = target.
Proof.
  simpl. intros [<- | [<- | [<- | [<- | []]]]]; reflexivity.
Qed.

Lemma canonical_present (df df' : DataFrame) (target : string) :
  normalize_cols df = inr df' ->
  In target (dict_keys col_map_candidates) -> In target (columns df').
Proof.
  intros Hn Ht. destruct (normalize_cols_rows df df' Hn) as (_ & -> & Hu).
  unfold dict_keys in Ht. apply in_map_iff in Ht.
  destruct Ht as ([t options] & <- & HIn). simpl.
  destruct (first_present options (map strip (columns df))) as [a|] eqn:E.
  - rewrite <- (rename_bound (map strip (columns df)) col_map_candidates t options a);
      auto using candidates_keys_NoDup, candidates_aliases_NoDup.
    apply in_map. now apply first_present_In in E.
  - exfalso.
    assert (Hin : In t (unresolved_fields col_map_candidates (map strip (columns df)))).
    { apply In_unresolved. exists options. split; [assumption|].
      now apply first_present_None. }
    now rewrite Hu in Hin.
Qed.

(** X9: a successful [normalize_cols] keeps the rows and the number of
    columns, leaves every column whose trimmed label is no alias of any
    field under that trimmed label, in its place, and returns a table in
    which each of the four canonical names labels a column. *)
Theorem normalize_cols_shape (df df' : DataFrame) :
  normalize_cols df = inr df' ->
  rows df' = rows df
  /\ List.length (columns df') = List.length (columns df)
  /\ (forall i c,
        nth_error (columns df) i = Some c ->
        ~ In (strip c) (flat_map snd col_map_candidates) ->
        nth_error (columns df') i = Some (strip c))
  /\ (forall target,
        In target ["Vendor Part Number"; "Item Description"; "Weight (g)"; "PCR %"] ->
        In target (columns df')).
Proof.
  intros Hn. destruct (normalize_cols_rows df df' Hn) as (Hr & Hc & _).
  split; [exact Hr|]. split; [|split].
  - now rewrite Hc, !length_map.
  - intros i c Hi Hc'. rewrite Hc, !nth_error_map, Hi. simpl.
    now rewrite rename_other.
  - intros target Ht. now apply (canonical_present df).
Qed.

(** X10: normalizing is idempotent: a table [normalize_cols] has returned is
    returned unchanged when normalized again. *)
Theorem normalize_cols_idempotent (df df' : DataFrame) :
  normalize_cols df = inr df' -> normalize_cols df' = inr df'.
Proof.
  intros Hn. destruct (normalize_cols_rows df df' Hn) as (_ & Hc & _).
  assert (Hs : map strip (columns df') = columns df').
  { rewrite Hc at 1. rewrite map_map. rewrite Hc. apply map_ext_in.
    intros c Hin.
    destruct (rename_cases (resolve col_map_candidates (map strip (columns df))) c)
      as [-> | Hk].
    - apply in_map_iff in Hin. destruct Hin as (c0 & <- & _).
      apply strip_idempotent.
    - apply candidates_stripped. apply (binding_keys (map strip (columns df))).
      rewrite <- resolve_bindings by apply candidates_keys_NoDup.
      unfold dict_keys.
      change (rename (rename_dict (resolve col_map_candidates (map strip (columns df)))) c)
        with (fst (rename (rename_dict (resolve col_map_candidates
                                          (map strip (columns df)))) c, c)).
      now apply in_map. }
  assert (Hfirst : forall t options,
             In (t, options) col_map_candidates ->
             first_present options (columns df') = Some t).
  { intros t options HIn. destruct (candidates_heads t options HIn) as [others ->].
    unfold first_present. simpl.
    assert (Hm : mem t (columns df') = true).
    { apply mem_In, (canonical_present df); [assumption|].
      unfold dict_keys. change t with (fst (t, t :: others)). now apply in_map. }
    now rewrite Hm. }
  rewrite normalize_cols_cases. cbv zeta. rewrite Hs.
  assert (Hu : unresolved_fields col_map_candidates (columns df') = []).
  { destruct (unresolved_fields col_map_candidates (columns df')) as [|t l] eqn:E;
      [reflexivity|].
    assert (Hin : In t (unresolved_fields col_map_candidates (columns df')))
      by (rewrite E; now left).
    apply In_unresolved in Hin. destruct Hin as (options & HIn & Hnone).
    apply first_present_None in Hnone. rewrite (Hfirst t options HIn) in Hnone.
    discriminate. }
  rewrite Hu. f_equal. destruct df' as [cols' rows']. cbn [columns rows] in *.
  f_equal. rewrite <- (map_id cols') at 3. apply map_ext. intros c.
  destruct (rename_cases (resolve col_map_candidates cols') c) as [E | Hin];
    [exact E|].
  set (k := rename (rename_dict (resolve col_map_candidates cols')) c) in *.
  clearbody k.
  rewrite resolve_bindings in Hin by apply candidates_keys_NoDup.
  apply in_flat_map in Hin. destruct Hin as ([t options] & HIn & Hb).
  unfold binding in Hb. cbn [fst snd] in Hb. rewrite (Hfirst t options HIn) in Hb.
  destruct Hb as [Hb | []]. inversion Hb. congruence.
Qed.

(** ** Which ledger columns are read *)

Lemma ledger_candidates_disjoint (pn qty : string) :
  In pn pn_candidates -> In qty qty_candidates ->
  pn <> qty /\ pn <> "Quantity" /\ qty <> "Vendor Part Number".
Proof.
  intros Hp Hq.
  assert (Hall : forallb (fun a =>
                    forallb (fun b => negb (String.eqb a b)
                                      && negb (String.eqb a "Quantity")
                                      && negb (String.eqb b "Vendor Part Number"))
                            qty_candidates) pn_candidates = true) by reflexivity.
  rewrite forallb_forall in Hall. specialize (Hall pn Hp).
  rewrite forallb_forall in Hall. specialize (Hall qty Hq).
  apply andb_prop in Hall. destruct Hall as [Hall H3].
  apply andb_prop in Hall. destruct Hall as [H1 H2].
  apply negb_true_iff in H1, H2, H3.
  apply String.eqb_neq in H1, H2, H3. now repeat split.
Qed.

Lemma first_present_head (c : string) (others columns : list string) (a : string) :
  first_present (c :: others) columns = Some a -> In c columns -> a = c.
Proof.
  unfold first_present. simpl. intros H Hin.
  apply mem_In in Hin. rewrite Hin in H. now injection H.
Qed.

Lemma position_map_eq (f : string -> string) (a b : string) (l : list string) :
  (forall c, In c l -> String.eqb a (f c) = String.eqb b c) ->
  position a (map f l) = position b l.
Proof.
  induction l as [|c l IH]; simpl; intros H.
  - reflexivity.
  - rewrite (H c) by now left. destruct (String.eqb b c); [reflexivity|].
    rewrite IH; [reflexivity|]. intros c' Hc'. apply H. now right.
Qed.

Lemma ledger_positions (found : list string) (pn qty : string) :
  first_present pn_candidates found = Some pn ->
  first_present qty_candidates found = Some qty ->
  let d := dict_set qty "Quantity" (dict_set pn "Vendor Part Number" []) in
  position "Vendor Part Number" (map (rename d) found) = position pn found
  /\ position "Quantity" (map (rename d) found) = position qty found.
Proof.
  intros Epn Eqty d.
  destruct (ledger_candidates_disjoint pn qty) as (Hne & HpQ & HqV).
  { now apply first_present_In in Epn. }
  { now apply first_present_In in Eqty. }
  assert (Hren : forall c,
             rename d c
             = if String.eqb c pn then "Vendor Part Number"
               else if String.eqb c qty then "Quantity" else c).
  { intros c. unfold rename, d. rewrite !dict_get_set. simpl.
    destruct (String.eqb c qty) eqn:E1, (String.eqb c pn) eqn:E2; try reflexivity.
    apply String.eqb_eq in E1, E2. congruence. }
  split.
  - apply position_map_eq. intros c Hc. rewrite Hren.
    destruct (String.eqb c pn) eqn:E2.
    + apply String.eqb_eq in E2. subst c. now rewrite !String.eqb_refl.
    + rewrite (String.eqb_sym pn c), E2.
      destruct (String.eqb c qty) eqn:E1.
      * apply String.eqb_eq in E1. subst c. apply String.eqb_neq. congruence.
      * apply String.eqb_neq. intros <-. apply String.eqb_neq in E2. apply E2.
        symmetry. now apply (first_present_head _ _ _ _ Epn).
  - apply position_map_eq. intros c Hc. rewrite Hren.
    destruct (String.eqb c pn) eqn:E2.
    + apply String.eqb_eq in E2. subst c.
      transitivity false; [now apply String.eqb_neq|].
      symmetry. apply String.eqb_neq. congruence.
    + destruct (String.eqb c qty) eqn:E1.
      * apply String.eqb_eq in E1. subst c. now rewrite !String.eqb_refl.
      * rewrite (String.eqb_sym qty c), E1.
        apply String.eqb_neq. intros <-. apply String.eqb_neq in E1. apply E1.
        symmetry. now apply (first_present_head _ _ _ _ Eqty).
Qed.

Section LedgerColumns.

Variable parse_float : string -> float.
Variable num_str : float -> string.

Lemma load_purchase_csv_columns_eq (df : DataFrame) (out : list PurchaseRecord) :
  load_purchase_csv parse_float num_str df = inr out ->
  exists pn qty,
    first_present pn_candidates (map strip (columns df)) = Some pn
    /\ first_present qty_candidates (map strip (columns df)) = Some qty
    /\ out
       = groupby_sum
           (map (fun row =>
                   mkPurchase
                     (strip (astype_str num_str
                               (cell_at pn (map strip (columns df)) row)))
                     (fillna (to_numeric parse_float
                                (cell_at qty (map strip (columns df)) row)) 0%float))
                (rows df)).
Proof.
  unfold load_purchase_csv.
  destruct (first_present pn_candidates (map strip (columns df))) as [pn|] eqn:Epn;
    [|discriminate].
  destruct (first_present qty_candidates (map strip (columns df))) as [qty|] eqn:Eqty;
    [|discriminate].
  destruct (ledger_positions _ _ _ Epn Eqty) as [Hpos1 Hpos2].
  set (d := dict_set qty "Quantity" (dict_set pn "Vendor Part Number" [])) in *.
  destruct (ambiguous _ _); [discriminate|]. intros [= <-].
  exists pn, qty. do 2 (split; [reflexivity|]).
  f_equal. apply map_ext. intros row. unfold read_purchase, cell_at.
  now rewrite Hpos1, Hpos2.
Qed.

(** X12: the calculator's coercion is idempotent: coercing again the rows it
    has produced gives them back unchanged. *)
Theorem coerce_row_idempotent (e : EditedRow) :
  coerce_row parse_float (as_edited (coerce_row parse_float e))
  = coerce_row parse_float e.
Proof.
  unfold coerce_row, as_edited.
  cbn [e_part_number e_description e_weight e_pcr e_quantity to_numeric
       part_number description weight_g pcr_pct quantity].
  assert (Hf : forall x, fillna (fillna x 0%float) 0%float = fillna x 0%float).
  { intros x. unfold fillna at 2 3. destruct (is_nan x) eqn:E; [reflexivity|].
    now apply fillna_number. }
  rewrite !Hf. f_equal.
  assert (Hb : between 0 100 (clip 0 100 (fillna (to_numeric parse_float (e_pcr e)) 0%float)))
    by (apply clip_between; now apply fillna_not_nan).
  rewrite fillna_number; [now apply clip_inside|].
  destruct Hb as [H0 _]. now apply leb_not_nan in H0.
Qed.

End LedgerColumns.

Section TypedLedgerColumns.

Variable parse_int : string -> option Z.
Variable parse_float : string -> float.
Variable num_str : float -> string.

Lemma typed_load_eq (df : Dtype.DataFrame) (out : list Dtype.PurchaseRecord) :
  Dtype.load_purchase_csv parse_int parse_float num_str df = inr out ->
  exists pn qty,
    let found := map strip (Dtype.columns df) in
    first_present pn_candidates found = Some pn
    /\ first_present qty_candidates found = Some qty
    /\ ambiguous ["Vendor Part Number"; "Quantity"]
         (map (rename (dict_set qty "Quantity"
                         (dict_set pn "Vendor Part Number" []))) found) = None
    /\ out
       = Dtype.groupby_sum
           (map (fun row =>
                   strip (Dtype.astype_str num_str (Dtype.cell_at pn found row)))
                (Dtype.rows df))
           (Dtype.fillna0
              (Dtype.to_numeric parse_int parse_float
                 (map (Dtype.cell_at qty found) (Dtype.rows df)))).
Proof.
  unfold Dtype.load_purchase_csv.
  destruct (first_present pn_candidates (map strip (Dtype.columns df)))
    as [pn|] eqn:Epn; [|discriminate].
  destruct (first_present qty_candidates (map strip (Dtype.columns df)))
    as [qty|] eqn:Eqty; [|discriminate].
  destruct (ledger_positions _ _ _ Epn Eqty) as [Hpos1 Hpos2].
  set (d := dict_set qty "Quantity" (dict_set pn "Vendor Part Number" [])) in *.
  destruct (ambiguous _ _) eqn:Ea; [discriminate|]. intros [= <-].
  exists pn, qty. cbn zeta. do 2 (split; [reflexivity|]).
  split; [exact Ea|].
  unfold Dtype.cell_at. rewrite Hpos1, Hpos2. reflexivity.
Qed.

(** X11: the ledger is read from the columns under the first accepted
    part-number header and the first accepted quantity header that are
    present, first in the order of the two candidate lists, not of the
    columns: the part numbers of the result are the distinct trimmed texts
    of the cells under the first, in sorted order, and a table with the same
    headers and the same cells in those two columns loads to the same
    result, whatever its other columns hold. *)
Theorem load_purchase_csv_columns (df : Dtype.DataFrame)
        (out : list Dtype.PurchaseRecord) :
  Dtype.load_purchase_csv parse_int parse_float num_str df = inr out ->
  exists pn qty before_pn after_pn before_qty after_qty,
    let found := map strip (Dtype.columns df) in
    pn_candidates = before_pn ++ pn :: after_pn
    /\ In pn found /\ (forall c, In c before_pn -> ~ In c found)
    /\ qty_candidates = before_qty ++ qty :: after_qty
    /\ In qty found /\ (forall c, In c before_qty -> ~ In c found)
    /\ map Dtype.p_part_number out
       = sort_keys
           (nodup string_dec
              (map (fun row =>
                      strip (Dtype.astype_str num_str (Dtype.cell_at pn found row)))
                   (Dtype.rows df)))
    /\ (forall rows' : list (list Dtype.Value),
          map (Dtype.cell_at pn found) rows'
          = map (Dtype.cell_at pn found) (Dtype.rows df) ->
          map (Dtype.cell_at qty found) rows'
          = map (Dtype.cell_at qty found) (Dtype.rows df) ->
          Dtype.load_purchase_csv parse_int parse_float num_str
            (Dtype.mkDataFrame (Dtype.columns df) rows')
          = inr out).
Proof.
  intros Hl.
  destruct (typed_load_eq df out Hl) as (pn & qty & Epn & Eqty & Ea & ->).
  destruct (first_present_Some _ _ _ Epn) as (b1 & a1 & H1 & Hin1 & Hb1).
  destruct (first_present_Some _ _ _ Eqty) as (b2 & a2 & H2 & Hin2 & Hb2).
  exists pn, qty, b1, a1, b2, a2. cbn zeta.
  do 6 (split; [assumption|]).
  split; [apply typed_groupby_sum_keys|].
  intros rows' Hpn Hqty.
  destruct (Dtype.load_purchase_csv parse_int parse_float num_str
              (Dtype.mkDataFrame (Dtype.columns df) rows')) as [e|out'] eqn:E.
  - exfalso. unfold Dtype.load_purchase_csv in E. cbn [Dtype.columns Dtype.rows] in E.
    cbn zeta in Epn, Eqty, Ea.
    rewrite Epn, Eqty, Ea in E. discriminate.
  - destruct (typed_load_eq _ _ E) as (pn' & qty' & Epn' & Eqty' & _ & ->).
    cbn [Dtype.columns Dtype.rows] in *. cbn zeta in *.
    rewrite Epn in Epn'. rewrite Eqty in Eqty'.
    injection Epn' as <-. injection Eqty' as <-.
    f_equal. f_equal.
    + rewrite <- !(map_map (Dtype.cell_at pn (map strip (Dtype.columns df)))
                     (fun v => strip (Dtype.astype_str num_str v))).
      now rewrite Hpn.
    + now rewrite Hqty.
Qed.

End TypedLedgerColumns.

(** ** The aggregate results *)

Lemma zero_add (x y : float) :
  is_zero x = true -> is_zero y = true -> is_zero (x + y)%float = true.
Proof.
  rewrite !is_zero_spec, add_spec. intros [sx ->] [sy ->].
  destruct sx, sy; eexists; reflexivity.
Qed.

Lemma zero_sub (x y : float) :
  is_zero x = true -> is_zero y = true -> is_zero (x - y)%float = true.
Proof.
  rewrite !is_zero_spec, sub_spec. intros [sx ->] [sy ->].
  destruct sx, sy; eexists; reflexivity.
Qed.

Lemma is_zero_not_nan (x : float) : is_zero x = true -> is_nan x = false.
Proof.
  intros H. apply is_zero_finite in H. unfold is_finite in H.
  apply negb_true_iff, orb_false_iff in H. tauto.
Qed.

Lemma sub_zero_eqb (x z : float) :
  is_nan x = false -> is_zero z = true -> (x - z =? x)%float = true.
Proof.
  intros Hx Hz. apply is_zero_spec in Hz. destruct Hz as [sz Hz].
  assert (Hn : Prim2SF x <> S754_nan).
  { intros E. apply is_nan_spec in E. congruence. }
  rewrite FloatAxioms.eqb_spec, sub_spec, Hz.
  destruct (Prim2SF x) as [s|s| |s m e].
  - destruct s, sz; reflexivity.
  - destruct s; reflexivity.
  - congruence.
  - apply SFeqb_refl_finite.
Qed.

Lemma series_sum_from (l : list float) (acc : float) :
  is_zero acc = true -> Forall (fun v => is_zero v = true) l ->
  is_zero (fold_left (fun acc v => if is_nan v then acc else (acc + v)%float) l acc)
  = true.
Proof.
  revert acc. induction l as [|v l IH]; simpl; intros acc Ha Hl.
  - exact Ha.
  - inversion Hl as [|? ? Hv Hl']; subst. apply IH; [|assumption].
    rewrite (is_zero_not_nan v Hv). now apply zero_add.
Qed.

Lemma series_sum_zero (l : list float) :
  Forall (fun v => is_zero v = true) l -> is_zero (series_sum l) = true.
Proof. intros H. unfold series_sum. now apply series_sum_from. Qed.

(** X13: when every selected row has a zero quantity (as every row has
    before a ledger is merged or a quantity is typed) and a finite weight,
    each aggregate result is zero: total and PCR mass in pounds and
    kilograms, avoided and baseline tonnes, and the advantage. *)
Theorem totals_without_quantities (parse_float : string -> float)
        (pet_pcr_benefit current_pcr_pct : float) (edited : list EditedRow) :
  is_finite pet_pcr_benefit = true ->
  between 0 100 current_pcr_pct ->
  (forall r, In r (coerce parse_float edited) ->
             is_zero (quantity r) = true /\ is_finite (weight_g r) = true) ->
  let t := totals pet_pcr_benefit current_pcr_pct (coerce parse_float edited) in
  is_zero (total_lbs t) = true /\ is_zero (total_kg t) = true
  /\ is_zero (pcr_lbs t) = true /\ is_zero (pcr_kg t) = true
  /\ is_zero (avoided_metric_tons t) = true
  /\ is_zero (baseline_avoided_metric_tons t) = true
  /\ is_zero (advantage_metric_tons t) = true.
Proof.
  intros Hb [Hp0 Hp1] Hall. cbn zeta.
  cbn [totals total_lbs total_kg pcr_lbs pcr_kg avoided_metric_tons
       baseline_avoided_metric_tons advantage_metric_tons].
  set (rs := coerce parse_float edited) in *.
  assert (Hpcr : forall r, In r rs -> between 0 100 (pcr_pct r)).
  { intros r Hr. unfold rs, coerce in Hr. apply in_map_iff in Hr.
    destruct Hr as (e & <- & _). cbn [coerce_row pcr_pct].
    apply clip_between. now apply fillna_not_nan. }
  assert (Hg : is_zero (series_sum (map (fun r => (weight_g r * quantity r)%float) rs))
               = true).
  { apply series_sum_zero, Forall_forall. intros v Hv.
    apply in_map_iff in Hv. destruct Hv as (r & <- & Hr).
    destruct (Hall r Hr). now apply zero_mul_r. }
  assert (Hpg : is_zero (series_sum
                           (map (fun r => (weight_g r * quantity r
                                           * (pcr_pct r / 100))%float) rs))
                = true).
  { apply series_sum_zero, Forall_forall. intros v Hv.
    apply in_map_iff in Hv. destruct Hv as (r & <- & Hr).
    destruct (Hall r Hr). destruct (Hpcr r Hr).
    apply zero_mul_l; [now apply zero_mul_r | now apply div_100_finite]. }
  assert (H1 : is_zero (series_sum (map (fun r => (weight_g r * quantity r)%float) rs)
                        / GRAMS_PER_LB)%float = true)
    by (apply zero_div; [assumption | apply regular_GRAMS_PER_LB]).
  assert (H2 : is_zero (series_sum (map (fun r => (weight_g r * quantity r)%float) rs)
                        / GRAMS_PER_LB * KG_PER_LB)%float = true)
    by (apply zero_mul_l; [assumption | reflexivity]).
  assert (H3 : is_zero (series_sum
                          (map (fun r => (weight_g r * quantity r
                                          * (pcr_pct r / 100))%float) rs)
                        / GRAMS_PER_LB)%float = true)
    by (apply zero_div; [assumption | apply regular_GRAMS_PER_LB]).
  assert (H4 : is_zero (series_sum
                          (map (fun r => (weight_g r * quantity r
                                          * (pcr_pct r / 100))%float) rs)
                        / GRAMS_PER_LB * KG_PER_LB)%float = true)
    by (apply zero_mul_l; [assumption | reflexivity]).
  assert (H5 : is_zero (series_sum
                          (map (fun r => (weight_g r * quantity r
                                          * (pcr_pct r / 100))%float) rs)
                        / GRAMS_PER_LB * KG_PER_LB * pet_pcr_benefit / 1000)%float
               = true).
  { apply zero_div; [|apply regular_1000]. now apply zero_mul_l. }
  assert (H6 : is_zero (series_sum (map (fun r => (weight_g r * quantity r)%float) rs)
                        / GRAMS_PER_LB * KG_PER_LB * (current_pcr_pct / 100)
                        * pet_pcr_benefit / 1000)%float = true).
  { apply zero_div; [|apply regular_1000]. apply zero_mul_l; [|assumption].
    apply zero_mul_l; [assumption | now apply div_100_finite]. }
  do 6 (split; [assumption|]). now apply zero_sub.
Qed.

(** X14: with a baseline of 0 % the baseline tonnage is zero and the
    advantage compares equal to the avoided tonnage, as long as the total
    mass and the benefit factor are finite and the avoided tonnage is a
    number. *)
Theorem advantage_without_baseline (pet_pcr_benefit : float)
        (edited : list PartRecord) :
  let t := totals pet_pcr_benefit 0%float edited in
  is_finite pet_pcr_benefit = true ->
  is_finite (total_kg t) = true ->
  is_nan (avoided_metric_tons t) = false ->
  is_zero (baseline_avoided_metric_tons t) = true
  /\ (advantage_metric_tons t =? avoided_metric_tons t)%float = true.
Proof.
  cbn zeta.
  cbn [totals total_kg avoided_metric_tons baseline_avoided_metric_tons
       advantage_metric_tons].
  intros Hb Hk Ha.
  change (0 / 100)%float with 0%float.
  assert (Hz : is_zero
                 (series_sum (map (fun r => (weight_g r * quantity r)%float) edited)
                  / GRAMS_PER_LB * KG_PER_LB * 0 * pet_pcr_benefit / 1000)%float
               = true).
  { apply zero_div; [|apply regular_1000]. apply zero_mul_l; [|assumption].
    now apply zero_mul_r. }
  split; [exact Hz|]. now apply sub_zero_eqb.
Qed.

(** ** Invariants through the merge *)

Lemma merge_row_origin (work : list PartRecord) (purchases : list PurchaseRecord)
      (r' : PartRecord) :
  In r' (merge_purchases work purchases) ->
  exists r,
    In r work
    /\ part_number r' = part_number r /\ description r' = description r
    /\ weight_g r' = weight_g r /\ pcr_pct r' = pcr_pct r
    /\ (quantity r' = quantity r
        \/ exists p, In p purchases /\ p_part_number p = part_number r
                     /\ is_nan (p_quantity p) = false
                     /\ quantity r' = p_quantity p).
Proof.
  unfold merge_purchases, left_join. intros H.
  apply in_map_iff in H. destruct H as ([r qc] & <- & H).
  apply in_flat_map in H. destruct H as (r0 & Hr0 & H).
  destruct (group_rows (part_number r0) purchases) as [|p ms] eqn:E.
  - destruct H as [[= <- <-] | []]. exists r0. split; [assumption|].
    do 4 (split; [reflexivity|]). left. cbn [quantity set_quantity].
    now apply fillna_nan.
  - apply in_map_iff in H. destruct H as (p' & [= <- <-] & Hp').
    rewrite <- E in Hp'. unfold group_rows in Hp'. apply filter_In in Hp'.
    destruct Hp' as [Hin Hpn]. apply String.eqb_eq in Hpn.
    exists r0. split; [assumption|]. do 4 (split; [reflexivity|]).
    cbn [quantity set_quantity]. destruct (is_nan (p_quantity p')) eqn:En.
    + left. now apply fillna_nan.
    + right. exists p'. repeat split; trivial. now apply fillna_number.
Qed.

(** X16: the merge invents nothing: whatever the ledger, every row of the
    merged table is a row of the working table with the same part number,
    description, weight and PCR percentage, and its quantity is either that
    row's own or a quantity (a number) the ledger holds for its part
    number. *)
Theorem merge_rows_come_from_catalog (work : list PartRecord)
        (purchases : list PurchaseRecord) (r' : PartRecord) :
  In r' (merge_purchases work purchases) ->
  exists r,
    In r work
    /\ part_number r' = part_number r /\ description r' = description r
    /\ weight_g r' = weight_g r /\ pcr_pct r' = pcr_pct r
    /\ (quantity r' = quantity r
        \/ exists p, In p purchases /\ p_part_number p = part_number r
                     /\ is_nan (p_quantity p) = false
                     /\ quantity r' = p_quantity p).
Proof. apply merge_row_origin. Qed.

Lemma series_sum_zeros (l : list float) :
  Forall (fun v => v = 0%float) l -> series_sum l = 0%float.
Proof.
  unfold series_sum. induction l as [|v l IH]; simpl; intros H.
  - reflexivity.
  - inversion H as [|? ? Hv Hl]; subst. now apply IH.
Qed.

Section Invariants.

Variable parse_float : string -> float.
Variable num_str : float -> string.

(** X17: after any ledger is merged into a loaded catalog, every row has a
    quantity and a weight that are numbers (not NaN) and a PCR percentage
    between 0 and 100. *)
Theorem merged_catalog_is_numeric (df : DataFrame) (parts : list PartRecord)
        (purchases : list PurchaseRecord) (r : PartRecord) :
  load_xlsx parse_float num_str df = inr parts ->
  In r (merge_purchases parts purchases) ->
  is_nan (quantity r) = false /\ is_nan (weight_g r) = false
  /\ between 0 100 (pcr_pct r).
Proof.
  intros Hl Hr.
  destruct (merge_row_origin parts purchases r Hr)
    as (r0 & Hr0 & _ & _ & -> & -> & Hq).
  destruct (load_xlsx_rows parse_float num_str df parts Hl) as (df' & _ & ->).
  apply in_map_iff in Hr0. destruct Hr0 as (r1 & <- & Hr1).
  apply filter_In in Hr1. destruct Hr1 as [_ Hn]. unfold notna_part in Hn.
  apply negb_true_iff in Hn. apply orb_false_iff in Hn. destruct Hn as [Hn Hp].
  apply orb_false_iff in Hn. destruct Hn as [_ Hw].
  cbn [quantity weight_g pcr_pct set_quantity set_pcr] in *.
  split; [|split].
  - destruct Hq as [-> | (p & _ & _ & Hp' & ->)]; [reflexivity | exact Hp'].
  - exact Hw.
  - now apply clip_between.
Qed.

(** X18: a part number all of whose ledger quantities fail to read as
    numbers is still listed in the loaded ledger, with quantity 0. *)
Theorem load_purchase_csv_unreadable_quantities (df : DataFrame)
        (out : list PurchaseRecord) (p : PurchaseRecord) :
  load_purchase_csv parse_float num_str df = inr out ->
  In p out ->
  exists pn qty,
    let found := map strip (columns df) in
    first_present pn_candidates found = Some pn
    /\ first_present qty_candidates found = Some qty
    /\ (exists row,
          In row (rows df)
          /\ strip (astype_str num_str (cell_at pn found row)) = p_part_number p)
    /\ ((forall row,
           In row (rows df) ->
           strip (astype_str num_str (cell_at pn found row)) = p_part_number p ->
           is_nan (to_numeric parse_float (cell_at qty found row)) = true) ->
        p_quantity p = 0%float).
Proof.
  intros Hl Hp.
  destruct (load_purchase_csv_columns_eq parse_float num_str df out Hl)
    as (pn & qty & Epn & Eqty & ->).
  exists pn, qty. cbn zeta. split; [exact Epn|]. split; [exact Eqty|].
  set (read := fun row =>
         mkPurchase
           (strip (astype_str num_str (cell_at pn (map strip (columns df)) row)))
           (fillna (to_numeric parse_float
                      (cell_at qty (map strip (columns df)) row)) 0%float)) in *.
  split.
  - assert (Hk : In (p_part_number p) (map p_part_number (map read (rows df))))
      by (apply groupby_sum_In_key; now apply in_map).
    rewrite map_map in Hk. apply in_map_iff in Hk.
    destruct Hk as (row & Hrow & Hin). now exists row.
  - intros Hall. rewrite (groupby_sum_quantity _ p Hp).
    apply series_sum_zeros, Forall_forall. intros v Hv.
    apply in_map_iff in Hv. destruct Hv as (r & <- & Hr).
    unfold group_rows in Hr. apply filter_In in Hr. destruct Hr as [Hr Hk].
    apply String.eqb_eq in Hk. apply in_map_iff in Hr.
    destruct Hr as (row & <- & Hrow). unfold read. cbn [p_quantity].
    apply fillna_nan. now apply Hall.
Qed.

End Invariants.

(** * The further properties at sample inputs *)

(** X2 at the sample ledger. *)
Lemma load_purchase_csv_sorted_witness :
  Sorted str_lt (map p_part_number sample_purchases).
Proof.
  apply (load_purchase_csv_sorted sample_parse sample_str sample_ledger).
  reflexivity.
Defined.

(** X4 at the sample catalog and a ledger for a part it does not hold. *)
Lemma merge_without_match_witness :
  merge_purchases sample_parts [mkPurchase "ZZZ-999" 12] = sample_parts.
Proof.
  apply merge_without_match. intros p Hp. simpl in Hp.
  destruct Hp as [<- | []]. simpl. intuition discriminate.
Defined.

(** X6 at the sample ledger and catalog. *)
Lemma load_then_merge_witness :
  List.length (merge_purchases sample_parts sample_purchases) = 3%nat
  /\ map part_number (merge_purchases sample_parts sample_purchases)
     = ["A-1"; "A-1"; "B-2"].
Proof.
  destruct (load_then_merge sample_parse sample_str sample_ledger
              sample_purchases sample_parts) as (H1 & _ & H2).
  - reflexivity.
  - split; [exact H1 | exact H2].
Defined.

(** X7 at the sample catalog: three rows, all kept. *)
Lemma load_xlsx_survivors_witness :
  List.length sample_parts = 3%nat
  /\ quantity (mkPart "A-1" "cap, blue" 25 0 0) = 0%float
  /\ is_nan (weight_g (mkPart "A-1" "cap, blue" 25 0 0)) = false.
Proof.
  destruct (load_xlsx_survivors sample_parse sample_str sample_catalog sample_parts)
    as (df' & _ & _ & _ & _ & H & _).
  - reflexivity.
  - split; [reflexivity|]. apply H. simpl. tauto.
Defined.

(** X9 and X10 at the sample catalog. *)
Lemma normalize_cols_shape_witness :
  In "Weight (g)"
     (columns (mkDataFrame
                 ["Vendor Part Number"; "Item Description"; "Weight (g)"; "PCR %"]
                 (rows sample_catalog))).
Proof.
  apply (normalize_cols_shape sample_catalog).
  - reflexivity.
  - simpl. tauto.
Defined.

Lemma normalize_cols_idempotent_witness :
  normalize_cols
    (mkDataFrame ["Vendor Part Number"; "Item Description"; "Weight (g)"; "PCR %"]
       (rows sample_catalog))
  = inr (mkDataFrame
           ["Vendor Part Number"; "Item Description"; "Weight (g)"; "PCR %"]
           (rows sample_catalog)).
Proof.
  apply (normalize_cols_idempotent sample_catalog). reflexivity.
Defined.

(** X11 at a ledger headed [Note], [Qty] and [Part Number]. *)
Lemma load_purchase_csv_columns_witness :
  exists pn qty before_pn after_pn before_qty after_qty,
    pn_candidates = before_pn ++ pn :: after_pn
    /\ In pn ["Note"; "Qty"; "Part Number"]
    /\ qty_candidates = before_qty ++ qty :: after_qty
    /\ In qty ["Note"; "Qty"; "Part Number"].
Proof.
  destruct (load_purchase_csv_columns sample_parse_int sample_parse sample_str
              ledger_with_note
              [Dtype.mkPurchase "A-1" (NInt 350)])
    as (pn & qty & b1 & a1 & b2 & a2 & H1 & H2 & _ & H3 & H4 & _).
  - reflexivity.
  - exists pn, qty, b1, a1, b2, a2. repeat split; assumption.
Defined.

(** X13 at the sample catalog as loaded, before any quantity is set. *)
Lemma totals_without_quantities_witness :
  is_zero (total_lbs (totals 1.70 25
                        (coerce sample_parse (map as_edited sample_parts))))
  = true
  /\ is_zero (advantage_metric_tons
                (totals 1.70 25 (coerce sample_parse (map as_edited sample_parts))))
     = true.
Proof.
  destruct (totals_without_quantities sample_parse 1.70 25
              (map as_edited sample_parts)) as (H1 & _ & _ & _ & _ & _ & H7).
  - reflexivity.
  - split; reflexivity.
  - intros r Hr. simpl in Hr.
    destruct Hr as [<- | [<- | [<- | []]]]; split; reflexivity.
  - split; [exact H1 | exact H7].
Defined.

(** X14 at one row of weight 50 g, PCR 40 %, quantity 1000. *)
Lemma advantage_without_baseline_witness :
  (advantage_metric_tons (totals 1.70 0 [mkPart "A-1" "cap" 50 40 1000])
   =? avoided_metric_tons (totals 1.70 0 [mkPart "A-1" "cap" 50 40 1000]))%float
  = true.
Proof.
  apply (advantage_without_baseline 1.70 [mkPart "A-1" "cap" 50 40 1000]);
    reflexivity.
Defined.

(** X16 and X17 at the merged sample catalog. *)
Lemma merge_rows_come_from_catalog_witness :
  exists r,
    In r sample_parts /\ part_number r = "A-1" /\ weight_g r = 50%float.
Proof.
  destruct (merge_rows_come_from_catalog sample_parts sample_purchases
              (mkPart "A-1" "cap" 50 100 350))
    as (r & Hr & H1 & _ & H2 & _).
  - simpl. left. reflexivity.
  - exists r. repeat split; [assumption | now rewrite <- H1 | now rewrite <- H2].
Defined.

Lemma merged_catalog_is_numeric_witness :
  is_nan (quantity (mkPart "A-1" "cap" 50 100 350)) = false
  /\ is_nan (weight_g (mkPart "A-1" "cap" 50 100 350)) = false
  /\ between 0 100 (pcr_pct (mkPart "A-1" "cap" 50 100 350)).
Proof.
  apply (merged_catalog_is_numeric sample_parse sample_str sample_catalog
           sample_parts sample_purchases).
  - reflexivity.
  - simpl. left. reflexivity.
Defined.

(** X18 at the sample ledger, where the only quantity of ZZZ-999 is the text
    [many]. *)
Lemma load_purchase_csv_unreadable_quantities_witness :
  exists pn qty,
    first_present pn_candidates ["Part Number"; "Qty"] = Some pn
    /\ first_present qty_candidates ["Part Number"; "Qty"] = Some qty.
Proof.
  destruct (load_purchase_csv_unreadable_quantities sample_parse sample_str
              sample_ledger sample_purchases (mkPurchase "ZZZ-999" 0))
    as (pn & qty & H1 & H2 & _).
  - reflexivity.
  - simpl. right. left. reflexivity.
  - exists pn, qty. split; assumption.
Defined.
